(** * Real IOP Estimator: a shallow embedding of the computational core

    The Python sources embedded here are
      - [config.py]          clinical constants,
      - [interpretation.py]  clinical category and confidence note,
      - [validation.py]      parsing and validation of the raw input,
      - the eight estimator modules and [statistics.py],
      - [iop_calculator.py]  the [IOPCalculator] class.

    Number model.  A finite Python float is embedded as an exact rational
    ([Q]); binary rounding error of float64 arithmetic is not modelled.
    The non-finite floats that [float()] can return from text ([inf],
    [nan]) are kept in the validation layer ([pyfloat]), where they reach
    the comparisons of the range check.  A numpy operation that yields a
    non-finite value or raises (empty array, zero divisor, index out of
    range) is embedded as [None].

    Because every float64 operation rounds, a value computed by the code
    can sit a few units in the last place away from the exact one and so
    fall on the other side of a rounding tie.  The properties below are
    therefore stated with a margin of one decimal step wherever a reported
    value is compared with an exact quantity, and as exact equalities only
    where the compared values are one-decimal numbers. *)

From Stdlib Require Import String Ascii.
From Stdlib Require Import ZArith QArith Qround Qabs Qminmax.
From Stdlib Require Import List Bool Lia Lqa.
From Stdlib Require Import Permutation Sorted.
Import ListNotations.

Local Open Scope Q_scope.

(** ** Python's [round(x, ndigits)]: round half to even on a decimal grid *)

Module PyRound.

(** Nearest integer, ties to the even neighbour (numpy's [rint]). *)
Definition rint (x : Q) : Z :=
  let f := Qfloor x in
  match Qcompare (x - inject_Z f) (1 # 2) with
  | Lt => f
  | Gt => (f + 1)%Z
  | Eq => if Z.even f then f else (f + 1)%Z
  end.

(** [10 ** ndigits] *)
Definition scale (ndigits : nat) : positive := Z.to_pos (10 ^ Z.of_nat ndigits).

(** [round x ndigits]; the result is stored in lowest terms. *)
Definition round (x : Q) (ndigits : nat) : Q :=
  Qred (Qmake (rint (x * inject_Z (Zpos (scale ndigits)))) (scale ndigits)).

(** A value that already lies on the grid of [ndigits] decimals. *)
Definition on_grid (x : Q) (ndigits : nat) : Prop :=
  exists k : Z, x == Qmake k (scale ndigits).

End PyRound.
Export PyRound.

(** ** config.py *)

Module Config.

Inductive category : Type :=
| severe_hypotony
| moderate_hypotony
| mild_hypotony
| normal
| borderline_elevated
| elevated
| severely_elevated.

(** [CLINICAL_RANGES]: a dict literal, iterated in insertion order. *)
Definition CLINICAL_RANGES : list (category * (Z * Z)) :=
  [ (severe_hypotony, (0, 6)%Z);
    (moderate_hypotony, (6, 8)%Z);
    (mild_hypotony, (8, 10)%Z);
    (normal, (10, 21)%Z);
    (borderline_elevated, (21, 24)%Z);
    (elevated, (24, 30)%Z);
    (severely_elevated, (30, 100)%Z) ].

Definition INTERPRETATION_LABELS (c : category) : string :=
  match c with
  | severe_hypotony => "Severe Hypotony"
  | moderate_hypotony => "Moderate Hypotony"
  | mild_hypotony => "Mild Hypotony"
  | normal => "Normal Range"
  | borderline_elevated => "Borderline Elevated"
  | elevated => "Elevated"
  | severely_elevated => "Severely Elevated"
  end%string.

Inductive tier : Type := excellent | good | fair.

Definition VARIABILITY_THRESHOLDS (t : tier) : Z :=
  match t with excellent => 2 | good => 4 | fair => 6 end%Z.

Definition MIN_MEASUREMENTS : nat := 3.
Definition MIN_IOP_VALUE : Z := 0.
Definition MAX_IOP_VALUE : Z := 100.

End Config.
Export Config.

(** ** interpretation.py *)

Module Interpretation.

(** The loop body's test [min_val <= iop_value < max_val]. *)
Definition in_range (iop_value : Q) (bounds : Z * Z) : bool :=
  Qle_bool (inject_Z (fst bounds)) iop_value &&
  negb (Qle_bool (inject_Z (snd bounds)) iop_value).

(** [for category, (min_val, max_val) in ranges.items(): ... return];
    [None] when the loop ends without returning. *)
Fixpoint scan_ranges (ranges : list (category * (Z * Z))) (iop_value : Q)
  : option category :=
  match ranges with
  | [] => None
  | (c, bounds) :: rest =>
      if in_range iop_value bounds then Some c else scan_ranges rest iop_value
  end.

Definition interpret_iop (iop_value : Q) : string :=
  match scan_ranges CLINICAL_RANGES iop_value with
  | Some c => INTERPRETATION_LABELS c
  | None => INTERPRETATION_LABELS severely_elevated
  end.

Definition get_confidence_note (variability : Q) : string :=
  if Qle_bool variability (inject_Z (VARIABILITY_THRESHOLDS excellent)) then
    "Excellent measurement consistency - High confidence"
  else if Qle_bool variability (inject_Z (VARIABILITY_THRESHOLDS good)) then
    "Good measurement consistency - Moderate confidence"
  else if Qle_bool variability (inject_Z (VARIABILITY_THRESHOLDS fair)) then
    "Fair measurement consistency - Consider additional measurements"
  else
    "High variability detected - Additional measurements recommended".

End Interpretation.
Export Interpretation.

(** The clinical intervals as the specification words them: seven
    half-open intervals [lo, hi), the last one without upper bound. *)
Module ClinicalSpec.

Record interval : Type := mkInterval {
  lo : Q;
  hi : option Q;
  label : string
}.

Definition clinical_intervals : list interval :=
  [ mkInterval 0 (Some 6) "Severe Hypotony";
    mkInterval 6 (Some 8) "Moderate Hypotony";
    mkInterval 8 (Some 10) "Mild Hypotony";
    mkInterval 10 (Some 21) "Normal Range";
    mkInterval 21 (Some 24) "Borderline Elevated";
    mkInterval 24 (Some 30) "Elevated";
    mkInterval 30 None "Severely Elevated" ].

Definition contains (i : interval) (v : Q) : Prop :=
  lo i <= v /\ match hi i with Some h => v < h | None => True end.

End ClinicalSpec.

(** ** Python strings and [float()] *)

Module PyStr.

Local Open Scope nat_scope.

(** [str.isspace] on ASCII text. *)
Definition isspace (c : ascii) : bool :=
  let n := nat_of_ascii c in
  ((9 <=? n) && (n <=? 13)) || ((28 <=? n) && (n <=? 32)).

Fixpoint lstrip (s : string) : string :=
  match s with
  | String c r => if isspace c then lstrip r else s
  | EmptyString => s
  end.

Fixpoint rstrip (s : string) : string :=
  match s with
  | String c r =>
      match rstrip r with
      | EmptyString => if isspace c then EmptyString else String c EmptyString
      | r' => String c r'
      end
  | EmptyString => EmptyString
  end.

Definition strip (s : string) : string := rstrip (lstrip s).

(** [s.split(sep)] for a one-character separator. *)
Fixpoint split (sep : ascii) (s : string) : list string :=
  match s with
  | EmptyString => [EmptyString]
  | String c r =>
      if Ascii.eqb c sep then EmptyString :: split sep r
      else match split sep r with
           | h :: t => String c h :: t
           | [] => [String c EmptyString]
           end
  end.

(** Truth value of a string: non-empty. *)
Definition truthy (s : string) : bool :=
  match s with EmptyString => false | String _ _ => true end.

Definition lower (c : ascii) : ascii :=
  let n := nat_of_ascii c in
  if (65 <=? n) && (n <=? 90) then ascii_of_nat (n + 32) else c.

Fixpoint lowercase (s : string) : string :=
  match s with
  | EmptyString => EmptyString
  | String c r => String (lower c) (lowercase r)
  end.

End PyStr.
Export PyStr.

Module PyFloat.

(** What [float(text)] can return. *)
Inductive pyfloat : Type :=
| Finite (q : Q)
| Inf (negative : bool)
| NaN.

(** [a < b] on floats: every comparison with [nan] is false. *)
Definition float_lt (a b : pyfloat) : bool :=
  match a, b with
  | NaN, _ | _, NaN => false
  | Finite x, Finite y => negb (Qle_bool y x)
  | Finite _, Inf nb => negb nb
  | Inf na, Finite _ => na
  | Inf na, Inf nb => na && negb nb
  end.

Definition digit_of (c : ascii) : option Z :=
  let n := nat_of_ascii c in
  if ((48 <=? n) && (n <=? 57))%nat then Some (Z.of_nat n - 48)%Z else None.

Definition is_digit (c : ascii) : bool :=
  match digit_of c with Some _ => true | None => false end.

(** [digitpart ::= digit (["_"] digit)*]: the digits read and the rest. *)
Fixpoint digitpart (s : string) : list Z * string :=
  match s with
  | EmptyString => ([], s)
  | String c r =>
      match digit_of c with
      | None => ([], s)
      | Some d =>
          match r with
          | String "_" r' =>
              match r' with
              | String c' _ =>
                  if is_digit c' then
                    let '(ds, rest) := digitpart r' in (d :: ds, rest)
                  else ([d], r)
              | EmptyString => ([d], r)
              end
          | _ => let '(ds, rest) := digitpart r in (d :: ds, rest)
          end
      end
  end.

Definition digits_value (ds : list Z) : Z :=
  fold_left (fun acc d => (10 * acc + d)%Z) ds 0%Z.

(** [sign ::= "+" | "-"], optional. *)
Definition sign (s : string) : bool * string :=
  match s with
  | String "-" r => (true, r)
  | String "+" r => (false, r)
  | _ => (false, s)
  end.

(** [floatnumber ::= number [exponent]] with
    [number ::= [digitpart] "." digitpart | digitpart ["."]] and
    [exponent ::= ("e" | "E") [sign] digitpart]. *)
Definition floatnumber (s : string) : option Q :=
  let '(ip, s1) := digitpart s in
  let number :=
    match s1 with
    | String "." s2 =>
        let '(fp, s3) := digitpart s2 in
        match ip, fp with
        | [], [] => None
        | _, _ => Some (fp, s3)
        end
    | _ => match ip with [] => None | _ => Some ([], s1) end
    end in
  match number with
  | None => None
  | Some (fp, s3) =>
      let mantissa :=
        Qmake (digits_value (ip ++ fp))
              (Z.to_pos (10 ^ Z.of_nat (length fp))) in
      match s3 with
      | EmptyString => Some mantissa
      | String c s4 =>
          if Ascii.eqb c "e" || Ascii.eqb c "E" then
            let '(eneg, s5) := sign s4 in
            let '(ep, s6) := digitpart s5 in
            match ep, s6 with
            | _ :: _, EmptyString =>
                let e := digits_value ep in
                Some (mantissa * Qpower 10 (if eneg then - e else e))
            | _, _ => None
            end
          else None
      end
  end.

(** [float(s)]: [None] stands for the ValueError
    "could not convert string to float". *)
Definition float (s : string) : option pyfloat :=
  let '(neg, body) := sign (strip s) in
  let l := lowercase body in
  if String.eqb l "inf" || String.eqb l "infinity" then Some (Inf neg)
  else if String.eqb l "nan" then Some NaN
  else match floatnumber body with
       | Some q => Some (Finite (Qred (if neg then - q else q)))
       | None => None
       end.

End PyFloat.
Export PyFloat.

(** ** validation.py *)

Module Validation.

(** The ValueErrors of the module, one constructor per message. *)
Inductive ValueError : Type :=
| Could_not_convert (token : string)
    (* raised by float(): "could not convert string to float: ..." *)
| Input_cannot_be_empty
| Invalid_number_format
| No_valid_values_found
| Out_of_acceptable_range (val : pyfloat)
| Too_few_measurements (provided : nat).

Inductive result (A : Type) : Type :=
| Ok (a : A)
| Raise (e : ValueError).
Arguments Ok {A} a.
Arguments Raise {A} e.

Definition bind {A B : Type} (r : result A) (k : A -> result B) : result B :=
  match r with
  | Ok a => k a
  | Raise e => Raise e
  end.

Notation "x <- c ;; k" := (bind c (fun x => k))
  (at level 61, c at next level, right associativity).

(** ["could not convert" in str(e)] *)
Definition could_not_convert_in (e : ValueError) : bool :=
  match e with Could_not_convert _ => true | _ => false end.

(** [[float(x.strip()) for x in tokens if x.strip()]] *)
Fixpoint convert_tokens (tokens : list string) : result (list pyfloat) :=
  match tokens with
  | [] => Ok []
  | x :: rest =>
      if truthy (strip x) then
        match float (strip x) with
        | None => Raise (Could_not_convert (strip x))
        | Some v => vs <- convert_tokens rest ;; Ok (v :: vs)
        end
      else convert_tokens rest
  end.

(** [val < MIN_IOP_VALUE or val > MAX_IOP_VALUE] *)
Definition out_of_range (val : pyfloat) : bool :=
  float_lt val (Finite (inject_Z MIN_IOP_VALUE)) ||
  float_lt (Finite (inject_Z MAX_IOP_VALUE)) val.

(** [for val in values: if ...: raise ValueError(...)] *)
Fixpoint check_values (values : list pyfloat) : result unit :=
  match values with
  | [] => Ok tt
  | val :: rest =>
      if out_of_range val then Raise (Out_of_acceptable_range val)
      else check_values rest
  end.

Definition parse_iop_input (input_string : string) : result (list pyfloat) :=
  if negb (truthy input_string) || negb (truthy (strip input_string)) then
    Raise Input_cannot_be_empty
  else
    let try_block :=
      values <- convert_tokens (split "," input_string) ;;
      match values with
      | [] => Raise No_valid_values_found
      | _ => _ <- check_values values ;; Ok values
      end in
    match try_block with
    | Raise e =>
        if could_not_convert_in e then Raise Invalid_number_format
        else Raise e
    | Ok values => Ok values
    end.

Definition validate_measurement_count (measurements : list pyfloat)
  : result unit :=
  if (length measurements <? MIN_MEASUREMENTS)%nat then
    Raise (Too_few_measurements (length measurements))
  else Ok tt.

Definition validate_measurements (input_string : string)
  : result (list pyfloat) :=
  measurements <- parse_iop_input input_string ;;
  _ <- validate_measurement_count measurements ;;
  Ok measurements.

(** The finite values of a validated list, as the numeric sample handed
    to the calculator; [None] when a non-finite float is present. *)
Fixpoint finite_values (values : list pyfloat) : option (list Q) :=
  match values with
  | [] => Some []
  | Finite q :: rest =>
      match finite_values rest with
      | Some qs => Some (q :: qs)
      | None => None
      end
  | _ :: _ => None
  end.

End Validation.
Export Validation.

(** The error taxonomy as the specification words it. *)
Module ErrorSpec.

Inductive error_kind : Type := ParseError | RangeError | InsufficientDataError.

Definition kind_of (e : ValueError) : error_kind :=
  match e with
  | Could_not_convert _ | Input_cannot_be_empty
  | Invalid_number_format | No_valid_values_found => ParseError
  | Out_of_acceptable_range _ => RangeError
  | Too_few_measurements _ => InsufficientDataError
  end.

End ErrorSpec.

(** ** The numpy operations used by the estimators *)

Module Numpy.

Definition obind {A B : Type} (o : option A) (k : A -> option B) : option B :=
  match o with
  | Some a => k a
  | None => None
  end.

Notation "'let?' x := c 'in' k" := (obind c (fun x => k))
  (at level 10, x name, c at level 100, k at level 200).

(** Float division; a zero divisor gives a non-finite value. *)
Definition np_div (x y : Q) : option Q :=
  if Qeq_bool y 0 then None else Some (x / y).

Definition np_sum (a : list Q) : Q := fold_left Qplus a 0.

Definition len (a : list Q) : Q := inject_Z (Z.of_nat (length a)).

Definition np_mean (a : list Q) : option Q := np_div (np_sum a) (len a).

Definition np_min (a : list Q) : option Q :=
  match a with
  | [] => None
  | x :: r => Some (fold_left Qmin r x)
  end.

Definition np_max (a : list Q) : option Q :=
  match a with
  | [] => None
  | x :: r => Some (fold_left Qmax r x)
  end.

(** [sorted(...)] and [np.sort(...)]: a stable ascending sort. *)
Fixpoint insert (x : Q) (l : list Q) : list Q :=
  match l with
  | [] => [x]
  | y :: r => if Qle_bool x y then x :: y :: r else y :: insert x r
  end.

Definition sorted (l : list Q) : list Q := fold_right insert [] l.

(** [np.median]: the middle order statistic, or the mean of the two
    middle ones for an even count. *)
Definition np_median (a : list Q) : option Q :=
  let s := sorted a in
  let n := length s in
  if Nat.even n then
    let? x := nth_error s (n / 2 - 1) in
    let? y := nth_error s (n / 2) in
    Some ((x + y) / 2)
  else nth_error s (n / 2).

(** [np.percentile(a, q)] with the default linear method: interpolate
    between the order statistics around position [(n-1) * q/100]. *)
Definition np_percentile (a : list Q) (q : Q) : option Q :=
  let s := sorted a in
  let n := length s in
  let virtual_index := inject_Z (Z.of_nat (n - 1)) * (q / 100) in
  let previous_index := Qfloor virtual_index in
  let next_index := Z.min (previous_index + 1) (Z.of_nat (n - 1)) in
  let gamma := virtual_index - inject_Z previous_index in
  let? lower := nth_error s (Z.to_nat previous_index) in
  let? upper := nth_error s (Z.to_nat next_index) in
  Some (lower + (upper - lower) * gamma).

(** [np.var(a, ddof)]: the quantity under the root of [np.std]. *)
Definition np_var (a : list Q) (ddof : Z) : option Q :=
  let? m := np_mean a in
  np_div (np_sum (map (fun x => (x - m) * (x - m)) a))
         (inject_Z (Z.of_nat (length a) - ddof)).

(** [a[lower:upper]] for non-negative bounds. *)
Definition slice (a : list Q) (lower upper : nat) : list Q :=
  firstn (upper - lower) (skipn lower a).

(** [a[i] = v] on a copy; [None] for an index out of range. *)
Fixpoint setitem (a : list Q) (i : nat) (v : Q) : option (list Q) :=
  match a, i with
  | [], _ => None
  | _ :: r, O => Some (v :: r)
  | x :: r, S j => let? r' := setitem r j v in Some (x :: r')
  end.

(** Elementwise product of two arrays of one shape. *)
Fixpoint np_mul (a b : list Q) : list Q :=
  match a, b with
  | x :: a', y :: b' => x * y :: np_mul a' b'
  | _, _ => []
  end.

Fixpoint mapM {A B : Type} (f : A -> option B) (l : list A) : option (list B) :=
  match l with
  | [] => Some []
  | x :: r =>
      let? y := f x in
      let? ys := mapM f r in
      Some (y :: ys)
  end.

End Numpy.
Export Numpy.

(** [round(sqrt(v), ndigits)]: the square root is irrational in general,
    so the rounded root is computed as a whole with the integer square
    root.  With [s = 10 ** ndigits] and [t = floor(2 s sqrt v)], the
    nearest grid point is [t/2] for even [t] and [t/2 + 1] for odd [t],
    except at an exact tie ([4 s^2 v = t^2], [t] odd), which goes to the
    even neighbour. *)
Module PyRoundSqrt.

Definition round_sqrt (v : Q) (ndigits : nat) : Q :=
  let s := Zpos (scale ndigits) in
  let w := v * inject_Z (4 * s * s) in
  let t := Z.sqrt (Qfloor w) in
  let m := (t / 2)%Z in
  let k :=
    if Z.even t then m
    else if Qeq_bool w (inject_Z (t * t)) then
           (if Z.even m then m else m + 1)%Z
         else (m + 1)%Z in
  Qred (Qmake k (scale ndigits)).

End PyRoundSqrt.
Export PyRoundSqrt.

(** ** The estimator modules *)

Module SafeIop.
Definition calculate_safe_iop (measurements : list Q) : option Q :=
  let n := length measurements in
  if (n <? 3)%nat then
    let? m := np_mean measurements in Some (round m 1)
  else
    let total_sum := np_sum measurements in
    let? min_val := np_min measurements in
    let? max_val := np_max measurements in
    let? safe_iop :=
      np_div (total_sum - min_val - max_val) (inject_Z (Z.of_nat n - 2)) in
    Some (round safe_iop 1).
End SafeIop.

Module PossibleIop.
Definition calculate_possible_iop (measurements : list Q) : option Q :=
  let? m := np_median measurements in Some (round m 1).
End PossibleIop.

Module ClinicalIop.
Definition calculate_clinical_iop (measurements : list Q) : option Q :=
  let? lo := np_min measurements in
  let? hi := np_max measurements in
  Some (round ((lo + hi) / 2) 1).
End ClinicalIop.

Module MeanIop.
Definition calculate_mean_iop (measurements : list Q) : option Q :=
  let? m := np_mean measurements in Some (round m 1).
End MeanIop.

Module TrimeanIop.
Definition calculate_trimean_iop (measurements : list Q) : option Q :=
  let? q1 := np_percentile measurements 25 in
  let? median := np_median measurements in
  let? q3 := np_percentile measurements 75 in
  let trimean := (q1 + 2 * median + q3) / 4 in
  Some (round trimean 1).
End TrimeanIop.

Module IqmIop.
Definition calculate_iqm_iop (measurements : list Q) : option Q :=
  let sorted_data := sorted measurements in
  let n := length sorted_data in
  (* floor(n / 4) and ceil(3 * n / 4) *)
  let lower_idx := (n / 4)%nat in
  let upper_idx := ((3 * n + 3) / 4)%nat in
  let iqr_data := slice sorted_data lower_idx upper_idx in
  if (length iqr_data =? 0)%nat then
    let? m := np_mean measurements in Some (round m 1)
  else
    let? iqm := np_mean iqr_data in
    Some (round iqm 1).
End IqmIop.

Module WinsorizedIop.
Definition calculate_winsorized_iop (measurements : list Q) : option Q :=
  if (length measurements <? 3)%nat then
    let? m := np_mean measurements in Some (round m 1)
  else
    let sorted_data := sorted measurements in
    let n := length sorted_data in
    let winsorized := sorted_data in
    let? second := nth_error sorted_data 1 in
    let? winsorized := setitem winsorized 0 second in
    let? second_last := nth_error sorted_data (n - 2) in
    let? winsorized := setitem winsorized (n - 1) second_last in
    let? m := np_mean winsorized in
    Some (round m 1).
End WinsorizedIop.

Module WeightedIop.
(** [1.0 / (1.0 + np.abs(measurements - median))], elementwise. *)
Definition weights (measurements : list Q) (median : Q) : option (list Q) :=
  mapM (fun x => np_div 1 (1 + Qabs (x - median))) measurements.

Definition calculate_weighted_iop (measurements : list Q) : option Q :=
  let? median := np_median measurements in
  let? weights := weights measurements median in
  let? weighted_mean :=
    np_div (np_sum (np_mul weights measurements)) (np_sum weights) in
  Some (round weighted_mean 1).
End WeightedIop.

(** ** statistics.py *)

Module Statistics.

Definition get_range (measurements : list Q) : option (Q * Q) :=
  let? lo := np_min measurements in
  let? hi := np_max measurements in
  Some (round lo 1, round hi 1).

Definition get_variability (measurements : list Q) : option Q :=
  let? hi := np_max measurements in
  let? lo := np_min measurements in
  Some (round (hi - lo) 1).

Definition get_standard_deviation (measurements : list Q) : option Q :=
  let? v := np_var measurements 1 in
  Some (round_sqrt v 2).

End Statistics.

(** ** iop_calculator.py *)

Module IOPCalculator.

(** The instance attributes. *)
Record t : Type := mk {
  measurements : list Q;
  n : nat
}.

(** [np.array(...)] of a list of floats: a float64 has one representation
    per number, so each element is stored in lowest terms. *)
Definition np_array (l : list Q) : list Q := map Qred l.

Definition __init__ (measurements : list Q) : result t :=
  if (length measurements <? 3)%nat then
    Raise (Too_few_measurements (length measurements))
  else
    let a := np_array (sorted measurements) in
    Ok (mk a (length a)).

Definition calculate_safe_iop (self : t) :=
  SafeIop.calculate_safe_iop (measurements self).
Definition calculate_possible_iop (self : t) :=
  PossibleIop.calculate_possible_iop (measurements self).
Definition calculate_clinical_iop (self : t) :=
  ClinicalIop.calculate_clinical_iop (measurements self).
Definition calculate_mean_iop (self : t) :=
  MeanIop.calculate_mean_iop (measurements self).
Definition calculate_trimean_iop (self : t) :=
  TrimeanIop.calculate_trimean_iop (measurements self).
Definition calculate_iqm_iop (self : t) :=
  IqmIop.calculate_iqm_iop (measurements self).
Definition calculate_winsorized_iop (self : t) :=
  WinsorizedIop.calculate_winsorized_iop (measurements self).
Definition calculate_weighted_iop (self : t) :=
  WeightedIop.calculate_weighted_iop (measurements self).
Definition get_range (self : t) := Statistics.get_range (measurements self).
Definition get_variability (self : t) :=
  Statistics.get_variability (measurements self).
Definition get_standard_deviation (self : t) :=
  Statistics.get_standard_deviation (measurements self).

(** The dictionary returned by [calculate_all]; the key [trimean_iop],
    written twice in the literal, is one entry. *)
Record results : Type := mkResults {
  safe_iop : Q;
  possible_iop : Q;
  clinical_iop : Q;
  mean_iop : Q;
  trimean_iop : Q;
  iqm_iop : Q;
  winsorized_iop : Q;
  weighted_iop : Q;
  min_iop : Q;
  max_iop : Q;
  variability : Q;
  std_dev : Q;
  n_measurements : nat
}.

Definition calculate_all (self : t) : option results :=
  let? range := get_range self in
  let '(min_val, max_val) := range in
  let? safe := calculate_safe_iop self in
  let? possible := calculate_possible_iop self in
  let? clinical := calculate_clinical_iop self in
  let? mean := calculate_mean_iop self in
  let? _ := calculate_trimean_iop self in
  let? trimean := calculate_trimean_iop self in
  let? iqm := calculate_iqm_iop self in
  let? winsorized := calculate_winsorized_iop self in
  let? weighted := calculate_weighted_iop self in
  let? var := get_variability self in
  let? sd := get_standard_deviation self in
  Some (mkResults safe possible clinical mean trimean iqm winsorized weighted
                  min_val max_val var sd (n self)).

Definition interpret_iop (self : t) (iop_value : Q) : string :=
  Interpretation.interpret_iop iop_value.

Definition get_confidence_note (self : t) : option string :=
  let? variability := get_variability self in
  Some (Interpretation.get_confidence_note variability).

End IOPCalculator.

(** ** interpretation.py, continued *)

Module StatusColor.

(** [sub in s] on strings: [sub] occurs in [s] as a substring. *)
Fixpoint str_in (sub s : string) : bool :=
  String.prefix sub s ||
  match s with
  | EmptyString => false
  | String _ r => str_in sub r
  end.

Definition get_status_color (interpretation : string) : string :=
  if str_in "Hypotony" interpretation then "red"
  else if str_in "Normal" interpretation then "green"
  else "orange".

End StatusColor.
Export StatusColor.

(** ** Predicates used to state the properties *)

Module Predicates.

(** Every element of the array lies in [lo, hi]. *)
Definition bounded (lo hi : Q) (a : list Q) : Prop :=
  Forall (fun x => lo <= x /\ x <= hi) a.

(** An estimator output: some value of [lo, hi], rounded to one decimal. *)
Definition estimate (lo hi : Q) (out : option Q) : Prop :=
  exists u, out = Some (round u 1) /\ lo <= u /\ u <= hi.

(** The validated-sample invariant of the specification. *)
Definition valid_sample (l : list Q) : Prop :=
  (3 <= length l)%nat /\ bounded 0 100 l.

(** The tokens the validator converts: comma-separated, trimmed, blank
    ones discarded. *)
Definition nonblank_tokens (s : string) : list string :=
  filter truthy (map strip (split "," s)).

(** A string of whitespace only. *)
Fixpoint all_space (s : string) : Prop :=
  match s with
  | EmptyString => True
  | String c r => isspace c = true /\ all_space r
  end.

(** The eight estimator outputs of a result record. *)
Definition estimator_outputs (r : IOPCalculator.results) : list Q :=
  [ IOPCalculator.safe_iop r; IOPCalculator.possible_iop r;
    IOPCalculator.clinical_iop r; IOPCalculator.mean_iop r;
    IOPCalculator.trimean_iop r; IOPCalculator.iqm_iop r;
    IOPCalculator.winsorized_iop r; IOPCalculator.weighted_iop r ].

End Predicates.
Export Predicates.

(** What each result of [validate_measurements] says about the input. *)
Module ValidationOutcome.

Definition in_bounds (v : pyfloat) : Prop := out_of_range v = false.

Definition outcome (s : string) (r : result (list pyfloat)) : Prop :=
  let toks := nonblank_tokens s in
  match r with
  | Ok vs =>
      mapM float toks = Some vs /\ Forall in_bounds vs /\
      (3 <= length vs)%nat
  | Raise Input_cannot_be_empty => all_space s
  | Raise No_valid_values_found => ~ all_space s /\ toks = []
  | Raise Invalid_number_format =>
      exists tok, In tok toks /\ float tok = None
  | Raise (Out_of_acceptable_range v) =>
      exists pre post,
        mapM float toks = Some (pre ++ v :: post) /\
        Forall in_bounds pre /\ out_of_range v = true
  | Raise (Too_few_measurements k) =>
      exists vs,
        mapM float toks = Some vs /\ Forall in_bounds vs /\
        k = length vs /\ (1 <= k < 3)%nat
  | Raise (Could_not_convert _) => False
  end.

End ValidationOutcome.
Export ValidationOutcome.

(** * Properties *)

(** ** Rounding *)

Section RoundFacts.

Lemma rint_comp (x y : Q) : x == y -> rint x = rint y.
Proof.
  intros E. unfold rint.
  rewrite (Qfloor_comp _ _ E).
  assert (C : Qcompare (x - inject_Z (Qfloor y)) (1 # 2)
              = Qcompare (y - inject_Z (Qfloor y)) (1 # 2)).
  { apply Qcompare_comp; [rewrite E|]; reflexivity. }
  now rewrite C.
Qed.

Lemma rint_inject_Z (k : Z) : rint (inject_Z k) = k.
Proof.
  unfold rint. rewrite Qfloor_Z.
  destruct (Qcompare_spec (inject_Z k - inject_Z k) (1 # 2)) as [E|L|G];
    try reflexivity; exfalso; lra.
Qed.

Lemma rint_le (x y : Q) : x <= y -> (rint x <= rint y)%Z.
Proof.
  intros L. unfold rint.
  pose proof (Qfloor_resp_le _ _ L) as F.
  pose proof (Qfloor_le x) as X1. pose proof (Qlt_floor x) as X2.
  pose proof (Qfloor_le y) as Y1. pose proof (Qlt_floor y) as Y2.
  set (fx := Qfloor x) in *. set (fy := Qfloor y) in *.
  destruct (Z.eq_dec fx fy) as [E|N].
  - rewrite <- E in *.
    destruct (Qcompare_spec (x - inject_Z fx) (1 # 2));
      destruct (Qcompare_spec (y - inject_Z fx) (1 # 2));
      destruct (Z.even fx) eqn:Ev; try lia; exfalso; lra.
  - destruct (Qcompare_spec (x - inject_Z fx) (1 # 2));
      destruct (Qcompare_spec (y - inject_Z fy) (1 # 2));
      destruct (Z.even fx); destruct (Z.even fy); lia.
Qed.

Lemma scale_pos (ndigits : nat) : 0 < inject_Z (Zpos (scale ndigits)).
Proof. reflexivity. Qed.

Lemma round_comp (x y : Q) (ndigits : nat) :
  x == y -> round x ndigits = round y ndigits.
Proof.
  intros E. unfold round. f_equal. f_equal.
  apply rint_comp. now rewrite E.
Qed.

(** The value of [round] before reduction. *)
Lemma round_value (x : Q) (ndigits : nat) :
  round x ndigits ==
  inject_Z (rint (x * inject_Z (Zpos (scale ndigits))))
  / inject_Z (Zpos (scale ndigits)).
Proof.
  unfold round. rewrite Qred_correct. rewrite Qmake_Qdiv. reflexivity.
Qed.

Lemma round_le (x y : Q) (ndigits : nat) :
  x <= y -> round x ndigits <= round y ndigits.
Proof.
  intros L. rewrite !round_value.
  pose proof (scale_pos ndigits) as P.
  set (s := inject_Z (Zpos (scale ndigits))) in *.
  assert (R : (rint (x * s) <= rint (y * s))%Z).
  { apply rint_le. apply Qmult_le_compat_r; lra. }
  rewrite Zle_Qle in R.
  unfold Qdiv. apply Qmult_le_compat_r; [exact R|].
  apply Qlt_le_weak, Qinv_lt_0_compat, P.
Qed.

Lemma round_on_grid (x : Q) (ndigits : nat) :
  on_grid x ndigits -> round x ndigits == x.
Proof.
  intros [k E]. rewrite (round_comp _ _ _ E). rewrite E.
  rewrite round_value.
  set (s := scale ndigits).
  assert (H : (k # s) * inject_Z (Zpos s) == inject_Z k).
  { rewrite Qmake_Qdiv. field. discriminate. }
  rewrite (rint_comp _ _ H), rint_inject_Z.
  rewrite Qmake_Qdiv. reflexivity.
Qed.

Lemma round_is_on_grid (x : Q) (ndigits : nat) :
  on_grid (round x ndigits) ndigits.
Proof.
  exists (rint (x * inject_Z (Zpos (scale ndigits)))).
  unfold round. apply Qred_correct.
Qed.

End RoundFacts.

(** ** Size of the rounding step *)

Section RoundError.

Lemma rint_error (y : Q) :
  - (1 # 2) <= inject_Z (rint y) - y /\ inject_Z (rint y) - y <= 1 # 2.
Proof.
  unfold rint.
  pose proof (Qfloor_le y) as F1. pose proof (Qlt_floor y) as F2.
  rewrite inject_Z_plus in F2. change (inject_Z 1) with 1 in F2.
  set (f := Qfloor y) in *.
  destruct (Qcompare_spec (y - inject_Z f) (1 # 2)) as [C|C|C];
    try destruct (Z.even f);
    rewrite ?inject_Z_plus; change (inject_Z 1) with 1; split; lra.
Qed.

Lemma round1_error (x : Q) : Qabs (round x 1 - x) <= 1 # 20.
Proof.
  apply Qabs_Qle_condition.
  rewrite round_value. change (inject_Z (Z.pos (scale 1))) with 10.
  destruct (rint_error (x * 10)) as [L U].
  set (t := inject_Z (rint (x * 10))) in *.
  assert (E : t / 10 * 10 == t) by field.
  set (u := t / 10) in *. split; lra.
Qed.

(** Rounding to one decimal moves a value by less than a tenth. *)
Lemma round1_near (u v : Q) : u == v -> Qabs (round u 1 - v) <= 1 # 10.
Proof.
  intros E. rewrite (round_comp _ _ _ E).
  apply Qle_trans with (1 # 20); [apply round1_error|].
  unfold Qle. simpl. lia.
Qed.

Lemma round1_between (u lo hi : Q) :
  lo <= u -> u <= hi ->
  lo - (1 # 10) <= round u 1 /\ round u 1 <= hi + (1 # 10).
Proof.
  intros L U. pose proof (round1_error u) as R.
  apply Qabs_Qle_condition in R. split; lra.
Qed.

End RoundError.

(** ** The rounded square root *)

Section RoundSqrtFacts.


End RoundSqrtFacts.

(** ** Clinical interpretation *)

Section InterpretationFacts.

Lemma Qle_bool_false (x y : Q) : Qle_bool x y = false -> y < x.
Proof.
  intros H. apply Qnot_le_lt. intros L.
  apply Qle_bool_iff in L. congruence.
Qed.

Lemma Qle_bool_true (x y : Q) : Qle_bool x y = true -> x <= y.
Proof. apply Qle_bool_iff. Qed.

(** The scan, seam by seam. *)
Lemma interpret_iop_cases (v : Q) :
  (v < 0 -> interpret_iop v = "Severely Elevated"%string) /\
  (0 <= v -> v < 6 -> interpret_iop v = "Severe Hypotony"%string) /\
  (6 <= v -> v < 8 -> interpret_iop v = "Moderate Hypotony"%string) /\
  (8 <= v -> v < 10 -> interpret_iop v = "Mild Hypotony"%string) /\
  (10 <= v -> v < 21 -> interpret_iop v = "Normal Range"%string) /\
  (21 <= v -> v < 24 -> interpret_iop v = "Borderline Elevated"%string) /\
  (24 <= v -> v < 30 -> interpret_iop v = "Elevated"%string) /\
  (30 <= v -> interpret_iop v = "Severely Elevated"%string).
Proof.
  unfold interpret_iop, CLINICAL_RANGES, scan_ranges, in_range, fst, snd.
  destruct (Qle_bool (inject_Z 0) v) eqn:H0;
  destruct (Qle_bool (inject_Z 6) v) eqn:H6;
  destruct (Qle_bool (inject_Z 8) v) eqn:H8;
  destruct (Qle_bool (inject_Z 10) v) eqn:H10;
  destruct (Qle_bool (inject_Z 21) v) eqn:H21;
  destruct (Qle_bool (inject_Z 24) v) eqn:H24;
  destruct (Qle_bool (inject_Z 30) v) eqn:H30;
  destruct (Qle_bool (inject_Z 100) v) eqn:H100;
  repeat match goal with
         | H : Qle_bool _ _ = true |- _ => apply Qle_bool_true in H
         | H : Qle_bool _ _ = false |- _ => apply Qle_bool_false in H
         end;
  unfold inject_Z in *; cbn [andb negb INTERPRETATION_LABELS];
  repeat split; intros; try reflexivity; exfalso; lra.
Qed.

End InterpretationFacts.

Import ClinicalSpec.

(** Choose the [k]-th interval of the list and discharge containment,
    label and uniqueness by linear arithmetic. *)
Ltac pick_interval k :=
  match goal with
  | |- exists i, In i ?l /\ _ =>
      exists (nth k l (mkInterval 0 None ""))
  end;
  cbn [nth clinical_intervals];
  split; [simpl; tauto|];
  split; [unfold contains; simpl; lra|];
  split; [simpl; match goal with H : _ |- _ => apply H; lra end|];
  intros j Hj [Lj Uj]; simpl in Hj;
  repeat (destruct Hj as [<- | Hj];
          [simpl in Lj, Uj; try reflexivity; exfalso; lra|]);
  contradiction.

(** C1: for every value [v >= 0], [interpret_iop] returns the label of the
    one interval [lo, hi) of the seven clinical intervals (seams at 6, 8,
    10, 21, 24 and 30) that contains [v]; every [v >= 30], however large,
    is labelled Severely Elevated; and the four seam examples 9.9, 10.0,
    20.999 and 21.0 evaluate as stated. *)
Theorem interpret_iop_interval :
  (forall v : Q, 0 <= v ->
     exists i : interval,
       In i clinical_intervals /\ contains i v /\
       interpret_iop v = label i /\
       (forall j, In j clinical_intervals -> contains j v -> j = i)) /\
  (forall v : Q, 30 <= v -> interpret_iop v = "Severely Elevated"%string) /\
  interpret_iop (99 # 10) = "Mild Hypotony"%string /\
  interpret_iop 10 = "Normal Range"%string /\
  interpret_iop (20999 # 1000) = "Normal Range"%string /\
  interpret_iop 21 = "Borderline Elevated"%string.
Proof.
  split; [|split; [|repeat split; reflexivity]].
  - intros v Hv.
    destruct (interpret_iop_cases v) as (_ & C0 & C6 & C8 & C10 & C21 & C24 & C30).
    assert (D : v < 6 \/ (6 <= v /\ v < 8) \/ (8 <= v /\ v < 10) \/
                (10 <= v /\ v < 21) \/ (21 <= v /\ v < 24) \/
                (24 <= v /\ v < 30) \/ 30 <= v).
    { destruct (Qlt_le_dec v 6); [lra|].
      destruct (Qlt_le_dec v 8); [lra|].
      destruct (Qlt_le_dec v 10); [lra|].
      destruct (Qlt_le_dec v 21); [lra|].
      destruct (Qlt_le_dec v 24); [lra|].
      destruct (Qlt_le_dec v 30); lra. }
    destruct D as [D|[D|[D|[D|[D|[D|D]]]]]].
    + pick_interval 0%nat.
    + pick_interval 1%nat.
    + pick_interval 2%nat.
    + pick_interval 3%nat.
    + pick_interval 4%nat.
    + pick_interval 5%nat.
    + pick_interval 6%nat.
  - intros v Hv.
    destruct (interpret_iop_cases v) as (_ & _ & _ & _ & _ & _ & _ & C30).
    exact (C30 Hv).
Qed.

Lemma interpret_iop_interval_witness :
  exists i : interval,
    In i clinical_intervals /\ contains i (25 # 2) /\
    interpret_iop (25 # 2) = label i /\
    (forall j, In j clinical_intervals -> contains j (25 # 2) -> j = i).
Proof.
  apply (proj1 interpret_iop_interval (25 # 2)).
  unfold Qle; simpl; lia.
Defined.

(** C10: every value strictly below 0 falls through the scan (no interval's
    lower-bound test admits it) and receives the default label, Severely
    Elevated. *)
Theorem interpret_iop_negative (v : Q) :
  v < 0 ->
  scan_ranges CLINICAL_RANGES v = None /\
  interpret_iop v = "Severely Elevated"%string.
Proof.
  intros Hv. split.
  - unfold CLINICAL_RANGES, scan_ranges, in_range, fst, snd.
    repeat match goal with
           | |- context [Qle_bool (inject_Z ?k) v] =>
               let E := fresh "E" in
               destruct (Qle_bool (inject_Z k) v) eqn:E;
               [apply Qle_bool_true in E; unfold inject_Z in E; exfalso; lra|];
               clear E
           end.
    reflexivity.
  - exact (proj1 (interpret_iop_cases v) Hv).
Qed.

Lemma interpret_iop_negative_witness :
  scan_ranges CLINICAL_RANGES (-1 # 2) = None /\
  interpret_iop (-1 # 2) = "Severely Elevated"%string.
Proof.
  apply (interpret_iop_negative (-1 # 2)).
  unfold Qlt; simpl; lia.
Defined.

(** ** Sorting *)

Section SortFacts.

Lemma insert_perm (x : Q) (l : list Q) : Permutation (insert x l) (x :: l).
Proof.
  induction l as [|y r IH]; simpl; [reflexivity|].
  destruct (Qle_bool x y); [reflexivity|].
  rewrite IH. apply perm_swap.
Qed.

Lemma sorted_perm (l : list Q) : Permutation (sorted l) l.
Proof.
  induction l as [|x r IH]; simpl; [reflexivity|].
  rewrite insert_perm. now constructor.
Qed.

Lemma sorted_length (l : list Q) : length (sorted l) = length l.
Proof. apply Permutation_length, sorted_perm. Qed.

Lemma insert_sorted (x : Q) (l : list Q) :
  StronglySorted Qle l -> StronglySorted Qle (insert x l).
Proof.
  induction 1 as [|y r Hr IH Hy]; simpl.
  - repeat constructor.
  - destruct (Qle_bool x y) eqn:E.
    + apply Qle_bool_true in E.
      constructor; [now constructor|].
      constructor; [exact E|].
      eapply Forall_impl; [|exact Hy]. intros z Hz. simpl in Hz. lra.
    + apply Qle_bool_false in E.
      constructor; [exact IH|].
      eapply Permutation_Forall; [symmetry; apply insert_perm|].
      constructor; [lra | exact Hy].
Qed.

Lemma sorted_sorted (l : list Q) : StronglySorted Qle (sorted l).
Proof.
  induction l as [|x r IH]; simpl; [constructor|].
  now apply insert_sorted.
Qed.

(** Sorting a sorted array leaves it as it is. *)
Lemma sorted_id (l : list Q) : StronglySorted Qle l -> sorted l = l.
Proof.
  induction 1 as [|y r Hr IH Hy]; simpl; [reflexivity|].
  rewrite IH. destruct r as [|z r']; [reflexivity|]. simpl.
  inversion Hy as [|? ? Hz _]; subst.
  apply Qle_bool_iff in Hz. now rewrite Hz.
Qed.

Lemma np_array_sorted (l : list Q) :
  StronglySorted Qle l -> StronglySorted Qle (IOPCalculator.np_array l).
Proof.
  unfold IOPCalculator.np_array.
  induction 1 as [|y r Hr IH Hy]; simpl; constructor; [exact IH|].
  rewrite Forall_map. eapply Forall_impl; [|exact Hy].
  intros z Hz. simpl in Hz. rewrite !Qred_correct. exact Hz.
Qed.



End SortFacts.

(** ** The numpy operations *)

Section NumpyFacts.

Lemma fold_left_Qplus (a : list Q) (acc : Q) :
  fold_left Qplus a acc == acc + np_sum a.
Proof.
  unfold np_sum. revert acc.
  induction a as [|x r IH]; intros acc; simpl; [lra|].
  rewrite IH, (IH (0 + x)). lra.
Qed.

Lemma np_sum_cons (x : Q) (a : list Q) : np_sum (x :: a) == x + np_sum a.
Proof. unfold np_sum at 1. simpl. rewrite fold_left_Qplus. lra. Qed.

Lemma np_sum_perm (a b : list Q) : Permutation a b -> np_sum a == np_sum b.
Proof.
  induction 1 as [|x a b P IH|x y a|a b c P1 IH1 P2 IH2].
  - reflexivity.
  - rewrite !np_sum_cons, IH. reflexivity.
  - rewrite !np_sum_cons. lra.
  - now rewrite IH1.
Qed.

Lemma len_cons (x : Q) (a : list Q) : len (x :: a) == 1 + len a.
Proof.
  unfold len. cbn [length]. rewrite Nat2Z.inj_succ, <- Z.add_1_l.
  rewrite inject_Z_plus. reflexivity.
Qed.

Lemma len_nonneg (a : list Q) : 0 <= len a.
Proof.
  unfold len. change 0 with (inject_Z 0). rewrite <- Zle_Qle. lia.
Qed.

Lemma len_pos (a : list Q) : a <> [] -> 0 < len a.
Proof.
  destruct a as [|x r]; [congruence|]. intros _.
  rewrite len_cons. pose proof (len_nonneg r). lra.
Qed.

Lemma np_sum_bounds (lo hi : Q) (a : list Q) :
  bounded lo hi a -> len a * lo <= np_sum a /\ np_sum a <= len a * hi.
Proof.
  induction 1 as [|x r [L U] B IH].
  - change (len []) with 0. change (np_sum []) with 0. lra.
  - rewrite np_sum_cons, len_cons. lra.
Qed.

Lemma np_div_some (x y : Q) : ~ y == 0 -> np_div x y = Some (x / y).
Proof.
  intros N. unfold np_div.
  destruct (Qeq_bool y 0) eqn:E; [|reflexivity].
  apply Qeq_bool_eq in E. contradiction.
Qed.

(** A quotient [s / d] with [d > 0] and [d * lo <= s <= d * hi]. *)
Lemma div_between (s d lo hi : Q) :
  0 < d -> d * lo <= s -> s <= d * hi ->
  np_div s d = Some (s / d) /\ lo <= s / d /\ s / d <= hi.
Proof.
  intros Pd L U. split; [apply np_div_some; lra|]. split.
  - apply Qle_shift_div_l; [exact Pd | lra].
  - apply Qle_shift_div_r; [exact Pd | lra].
Qed.

Lemma np_mean_bounds (lo hi : Q) (a : list Q) :
  a <> [] -> bounded lo hi a ->
  exists u, np_mean a = Some u /\ lo <= u /\ u <= hi.
Proof.
  intros N B. exists (np_sum a / len a).
  destruct (np_sum_bounds _ _ _ B) as [L U].
  apply div_between; auto using len_pos.
Qed.

Lemma Qmin_case (x y : Q) :
  (Qmin x y = x /\ x <= y) \/ (Qmin x y = y /\ y <= x).
Proof.
  unfold Qmin, GenericMinMax.gmin.
  destruct (Qcompare_spec x y); [left|left|right]; split; try reflexivity; lra.
Qed.

Lemma Qmax_case (x y : Q) :
  (Qmax x y = x /\ y <= x) \/ (Qmax x y = y /\ x <= y).
Proof.
  unfold Qmax, GenericMinMax.gmax.
  destruct (Qcompare_spec x y); [left|right|left]; split; try reflexivity; lra.
Qed.

Lemma fold_left_Qmin (r : list Q) (x : Q) :
  let m := fold_left Qmin r x in
  (m = x \/ In m r) /\ m <= x /\ Forall (Qle m) r.
Proof.
  revert x. induction r as [|y r IH]; intros x; simpl.
  - split; [now left|]. split; [lra | constructor].
  - destruct (IH (Qmin x y)) as (I & L & F).
    destruct (Qmin_case x y) as [[E Lxy]|[E Lxy]]; rewrite E in *.
    + split; [tauto|]. split; [exact L|]. constructor; [lra | exact F].
    + split; [destruct I as [I|I]; auto|]. split; [lra|].
      constructor; [exact L | exact F].
Qed.

Lemma fold_left_Qmax (r : list Q) (x : Q) :
  let m := fold_left Qmax r x in
  (m = x \/ In m r) /\ x <= m /\ Forall (fun z => z <= m) r.
Proof.
  revert x. induction r as [|y r IH]; intros x; simpl.
  - split; [now left|]. split; [lra | constructor].
  - destruct (IH (Qmax x y)) as (I & L & F).
    destruct (Qmax_case x y) as [[E Lxy]|[E Lxy]]; rewrite E in *.
    + split; [tauto|]. split; [exact L|]. constructor; [lra | exact F].
    + split; [destruct I as [I|I]; auto|]. split; [lra|].
      constructor; [exact L | exact F].
Qed.

Lemma np_min_spec (a : list Q) (m : Q) :
  np_min a = Some m -> In m a /\ Forall (Qle m) a.
Proof.
  destruct a as [|x r]; simpl; [discriminate|].
  intros [= <-]. destruct (fold_left_Qmin r x) as (I & L & F).
  split; [destruct I as [I|I]; [left; now rewrite I | now right]|].
  now constructor.
Qed.

Lemma np_max_spec (a : list Q) (m : Q) :
  np_max a = Some m -> In m a /\ Forall (fun z => z <= m) a.
Proof.
  destruct a as [|x r]; simpl; [discriminate|].
  intros [= <-]. destruct (fold_left_Qmax r x) as (I & L & F).
  split; [destruct I as [I|I]; [left; now rewrite I | now right]|].
  now constructor.
Qed.

Lemma np_min_max_exist (a : list Q) :
  a <> [] -> exists lo hi, np_min a = Some lo /\ np_max a = Some hi.
Proof.
  destruct a as [|x r]; [congruence|]. intros _. simpl. eauto.
Qed.

(** The array lies between its own minimum and maximum. *)
Lemma min_max_bounded (a : list Q) (lo hi : Q) :
  np_min a = Some lo -> np_max a = Some hi -> bounded lo hi a.
Proof.
  intros Hlo Hhi.
  destruct (np_min_spec _ _ Hlo) as [_ Flo].
  destruct (np_max_spec _ _ Hhi) as [_ Fhi].
  unfold bounded. rewrite Forall_forall in *. intros x Hx. split; auto.
Qed.

Lemma bounded_perm (lo hi : Q) (a b : list Q) :
  Permutation a b -> bounded lo hi a -> bounded lo hi b.
Proof. intros P B. unfold bounded. eapply Permutation_Forall; eauto. Qed.

Lemma bounded_sorted (lo hi : Q) (a : list Q) :
  bounded lo hi a -> bounded lo hi (sorted a).
Proof. apply bounded_perm. symmetry. apply sorted_perm. Qed.

Lemma bounded_nth (lo hi : Q) (a : list Q) (i : nat) (x : Q) :
  bounded lo hi a -> nth_error a i = Some x -> lo <= x /\ x <= hi.
Proof.
  intros B E. apply nth_error_In in E.
  unfold bounded in B. rewrite Forall_forall in B. auto.
Qed.

Lemma nth_error_exists (a : list Q) (i : nat) :
  (i < length a)%nat -> exists x, nth_error a i = Some x.
Proof.
  intros L. destruct (nth_error a i) eqn:E; [eauto|].
  apply nth_error_None in E. lia.
Qed.

End NumpyFacts.

(** ** The estimators stay within the observed range *)

Section EstimatorFacts.

Variables (a : list Q) (lo hi : Q).
Hypothesis Hne : a <> [].
Hypothesis Hmin : np_min a = Some lo.
Hypothesis Hmax : np_max a = Some hi.

Lemma sample_bounded : bounded lo hi a.
Proof. now apply min_max_bounded. Qed.

Lemma lo_le_hi : lo <= hi.
Proof.
  destruct (np_min_spec _ _ Hmin) as [I _].
  destruct (np_max_spec _ _ Hmax) as [_ F].
  rewrite Forall_forall in F. now apply F.
Qed.

Lemma sorted_length_pos : (0 < length (sorted a))%nat.
Proof.
  rewrite sorted_length. destruct a; [congruence | simpl; lia].
Qed.

Lemma np_median_bounds :
  exists u, np_median a = Some u /\ lo <= u /\ u <= hi.
Proof.
  pose proof (bounded_sorted _ _ _ sample_bounded) as B.
  pose proof sorted_length_pos as P.
  unfold np_median.
  set (s := sorted a) in *. set (n := length s) in *.
  destruct (Nat.even n) eqn:E.
  - assert (2 <= n)%nat.
    { destruct n as [|[|k]]; [lia | discriminate | lia]. }
    assert (n / 2 < n)%nat by (apply Nat.div_lt; lia).
    destruct (nth_error_exists s (n / 2 - 1)) as [x Hx]; [fold n; lia|].
    destruct (nth_error_exists s (n / 2)) as [y Hy]; [fold n; lia|].
    rewrite Hx, Hy. cbn [obind]. exists ((x + y) / 2). split; [reflexivity|].
    destruct (bounded_nth _ _ _ _ _ B Hx), (bounded_nth _ _ _ _ _ B Hy).
    split.
    + apply Qle_shift_div_l; lra.
    + apply Qle_shift_div_r; lra.
  - assert (n / 2 < n)%nat by (apply Nat.div_lt; lia).
    destruct (nth_error_exists s (n / 2)) as [x Hx]; [fold n; lia|].
    exists x. split; [exact Hx|]. exact (bounded_nth _ _ _ _ _ B Hx).
Qed.

(** A point between two values of [lo, hi] stays in [lo, hi]. *)
Lemma lerp_between (x y g : Q) :
  lo <= x <= hi -> lo <= y <= hi -> 0 <= g <= 1 ->
  lo <= x + (y - x) * g /\ x + (y - x) * g <= hi.
Proof.
  intros [Lx Ux] [Ly Uy] [G0 G1].
  assert (E : x + (y - x) * g == x * (1 - g) + y * g) by ring.
  rewrite E.
  assert (lo * (1 - g) <= x * (1 - g)) by (apply Qmult_le_compat_r; lra).
  assert (x * (1 - g) <= hi * (1 - g)) by (apply Qmult_le_compat_r; lra).
  assert (lo * g <= y * g) by (apply Qmult_le_compat_r; lra).
  assert (y * g <= hi * g) by (apply Qmult_le_compat_r; lra).
  split; lra.
Qed.

Lemma np_percentile_bounds (q : Q) :
  0 <= q -> q <= 100 ->
  exists u, np_percentile a q = Some u /\ lo <= u /\ u <= hi.
Proof.
  intros Q0 Q100.
  pose proof (bounded_sorted _ _ _ sample_bounded) as B.
  pose proof sorted_length_pos as P.
  unfold np_percentile.
  set (s := sorted a) in *. set (n := length s) in *.
  set (m := inject_Z (Z.of_nat (n - 1))).
  assert (M0 : 0 <= m).
  { unfold m. change 0 with (inject_Z 0). rewrite <- Zle_Qle. lia. }
  assert (T0 : 0 <= q / 100) by (apply Qle_shift_div_l; lra).
  assert (T1 : q / 100 <= 1) by (apply Qle_shift_div_r; lra).
  set (v := m * (q / 100)).
  assert (V0 : 0 <= v) by (now apply Qmult_le_0_compat).
  assert (V1 : v <= m).
  { assert (q / 100 * m <= 1 * m) by (now apply Qmult_le_compat_r).
    unfold v. lra. }
  pose proof (Qfloor_le v) as F1. pose proof (Qlt_floor v) as F2.
  assert (P0 : (0 <= Qfloor v)%Z).
  { change 0%Z with (Qfloor 0). now apply Qfloor_resp_le. }
  assert (P1 : (Qfloor v <= Z.of_nat (n - 1))%Z).
  { rewrite <- (Qfloor_Z (Z.of_nat (n - 1))). now apply Qfloor_resp_le. }
  destruct (nth_error_exists s (Z.to_nat (Qfloor v))) as [x Hx]; [fold n; lia|].
  destruct (nth_error_exists s
              (Z.to_nat (Z.min (Qfloor v + 1) (Z.of_nat (n - 1)))))
    as [y Hy]; [fold n; lia|].
  rewrite Hx, Hy. cbn [obind].
  eexists. split; [reflexivity|].
  apply lerp_between.
  - exact (bounded_nth _ _ _ _ _ B Hx).
  - exact (bounded_nth _ _ _ _ _ B Hy).
  - rewrite inject_Z_plus in F2. change (inject_Z 1) with 1 in F2. lra.
Qed.

Hypothesis Hlen : (3 <= length a)%nat.

Lemma bounded_app_inv (x y : list Q) :
  bounded lo hi (x ++ y) -> bounded lo hi x /\ bounded lo hi y.
Proof. unfold bounded. apply Forall_app. Qed.

Lemma bounded_slice (s : list Q) (i j : nat) :
  bounded lo hi s -> bounded lo hi (slice s i j).
Proof.
  intros B. unfold slice.
  rewrite <- (firstn_skipn i s) in B. apply bounded_app_inv in B.
  destruct B as [_ B].
  rewrite <- (firstn_skipn (j - i) (skipn i s)) in B.
  now apply bounded_app_inv in B.
Qed.

(** Removing one occurrence of the minimum and one of the maximum leaves
    [n - 2] values of the sample. *)
Lemma drop_min_max :
  exists rest,
    length rest = (length a - 2)%nat /\ bounded lo hi rest /\
    np_sum a - lo - hi == np_sum rest.
Proof.
  pose proof sample_bounded as B.
  destruct (np_min_spec _ _ Hmin) as [Ilo _].
  destruct (np_max_spec _ _ Hmax) as [Ihi _].
  destruct (in_split _ _ Ilo) as (l1 & l2 & E).
  assert (P : Permutation a (lo :: l1 ++ l2)).
  { rewrite E. symmetry. apply Permutation_middle. }
  remember (l1 ++ l2) as a' eqn:Ea'. clear Ea' E l1 l2.
  assert (Ihi' : In hi (lo :: a')) by (eapply Permutation_in; eauto).
  pose proof (bounded_perm _ _ _ _ P B) as B'.
  pose proof (Permutation_length P) as Len. simpl in Len.
  pose proof (np_sum_perm _ _ P) as S. rewrite np_sum_cons in S.
  pose proof (Forall_inv_tail B') as Brest.
  destruct Ihi' as [Eq | Ihi'].
  - destruct a' as [|z rest]; [simpl in Len; lia|].
    exists rest.
    destruct (Forall_inv Brest) as [Lz Uz].
    pose proof (Forall_inv_tail Brest) as Brest'.
    split; [simpl in Len; lia|]. split; [exact Brest'|].
    rewrite np_sum_cons in S. rewrite <- Eq in Uz |- *. lra.
  - destruct (in_split _ _ Ihi') as (l3 & l4 & E').
    exists (l3 ++ l4). subst a'.
    assert (P' : Permutation (l3 ++ hi :: l4) (hi :: l3 ++ l4)).
    { symmetry. apply Permutation_middle. }
    pose proof (bounded_perm _ _ _ _ P' Brest) as B''.
    pose proof (Forall_inv_tail B'') as B3.
    rewrite (np_sum_perm _ _ P'), np_sum_cons in S.
    rewrite (Permutation_length P') in Len. simpl in Len.
    split; [lia|]. split; [exact B3 | lra].
Qed.

Lemma safe_iop_estimate : estimate lo hi (SafeIop.calculate_safe_iop a).
Proof.
  unfold SafeIop.calculate_safe_iop.
  destruct (Nat.ltb_spec (length a) 3) as [L|_]; [lia|].
  rewrite Hmin, Hmax. cbn [obind].
  destruct drop_min_max as (rest & Len & B & S).
  destruct (np_sum_bounds _ _ _ B) as [L U].
  assert (D : inject_Z (Z.of_nat (length a) - 2) == len rest).
  { unfold len. rewrite Len. apply inject_Z_injective.
    rewrite Nat2Z.inj_sub by lia. reflexivity. }
  assert (Pd : 0 < len rest).
  { apply len_pos. destruct rest; [simpl in Len; lia | congruence]. }
  destruct (div_between (np_sum a - lo - hi)
              (inject_Z (Z.of_nat (length a) - 2)) lo hi) as (E & L' & U').
  - lra.
  - rewrite D, S. exact L.
  - rewrite D, S. exact U.
  - rewrite E. cbn [obind]. eexists. split; [reflexivity|]. split; assumption.
Qed.

Lemma possible_iop_estimate :
  estimate lo hi (PossibleIop.calculate_possible_iop a).
Proof.
  unfold PossibleIop.calculate_possible_iop.
  destruct np_median_bounds as (u & E & B). rewrite E. cbn [obind].
  exists u. split; [reflexivity | exact B].
Qed.

Lemma clinical_iop_estimate :
  estimate lo hi (ClinicalIop.calculate_clinical_iop a).
Proof.
  unfold ClinicalIop.calculate_clinical_iop.
  rewrite Hmin, Hmax. cbn [obind].
  eexists. split; [reflexivity|]. pose proof lo_le_hi. split.
  - apply Qle_shift_div_l; lra.
  - apply Qle_shift_div_r; lra.
Qed.

Lemma mean_iop_estimate : estimate lo hi (MeanIop.calculate_mean_iop a).
Proof.
  unfold MeanIop.calculate_mean_iop.
  destruct (np_mean_bounds lo hi a Hne sample_bounded) as (u & E & B).
  rewrite E. cbn [obind]. exists u. split; [reflexivity | exact B].
Qed.

Lemma trimean_iop_estimate :
  estimate lo hi (TrimeanIop.calculate_trimean_iop a).
Proof.
  unfold TrimeanIop.calculate_trimean_iop.
  destruct (np_percentile_bounds 25) as (q1 & E1 & L1 & U1); try lra.
  destruct np_median_bounds as (m & Em & Lm & Um).
  destruct (np_percentile_bounds 75) as (q3 & E3 & L3 & U3); try lra.
  rewrite E1, Em, E3. cbn [obind].
  eexists. split; [reflexivity|]. split.
  - apply Qle_shift_div_l; lra.
  - apply Qle_shift_div_r; lra.
Qed.

Lemma iqm_iop_estimate : estimate lo hi (IqmIop.calculate_iqm_iop a).
Proof.
  unfold IqmIop.calculate_iqm_iop.
  set (iqr_data := slice _ _ _).
  assert (B : bounded lo hi iqr_data).
  { apply bounded_slice, bounded_sorted, sample_bounded. }
  destruct (Nat.eqb_spec (length iqr_data) 0) as [Z|NZ].
  - apply mean_iop_estimate.
  - assert (N : iqr_data <> []) by (intros E; rewrite E in NZ; now apply NZ).
    destruct (np_mean_bounds lo hi iqr_data N B) as (u & E & Bu).
    rewrite E. cbn [obind]. exists u. split; [reflexivity | exact Bu].
Qed.

Lemma setitem_exists (s : list Q) (i : nat) (v : Q) :
  (i < length s)%nat -> exists s', setitem s i v = Some s'.
Proof.
  revert i. induction s as [|x r IH]; intros i L; simpl in L; [lia|].
  destruct i as [|j]; simpl; [eauto|].
  destruct (IH j) as [r' E]; [lia|]. rewrite E. simpl. eauto.
Qed.

Lemma setitem_spec (s s' : list Q) (i : nat) (v : Q) :
  setitem s i v = Some s' -> bounded lo hi s -> lo <= v <= hi ->
  length s' = length s /\ bounded lo hi s'.
Proof.
  revert i s'. induction s as [|x r IH]; intros i s' E B V; simpl in E.
  - discriminate.
  - pose proof (Forall_inv B) as Bx. pose proof (Forall_inv_tail B) as Br.
    destruct i as [|j].
    + injection E as <-. split; [reflexivity|]. now constructor.
    + destruct (setitem r j v) as [r'|] eqn:Er; simpl in E; [|discriminate].
      injection E as <-. destruct (IH j r' Er Br V) as [L B'].
      split; [simpl; now rewrite L|]. now constructor.
Qed.

Lemma winsorized_iop_estimate :
  estimate lo hi (WinsorizedIop.calculate_winsorized_iop a).
Proof.
  unfold WinsorizedIop.calculate_winsorized_iop.
  destruct (Nat.ltb_spec (length a) 3) as [L|_]; [lia|].
  pose proof (bounded_sorted _ _ _ sample_bounded) as B.
  pose proof (sorted_length a) as Ls.
  set (s := sorted a) in *.
  destruct (nth_error_exists s 1) as [x Hx]; [lia|].
  destruct (nth_error_exists s (length s - 2)) as [y Hy]; [lia|].
  destruct (setitem_exists s 0 x) as [w1 H1]; [lia|].
  destruct (setitem_spec _ _ _ _ H1 B (bounded_nth _ _ _ _ _ B Hx)) as [L1 B1].
  destruct (setitem_exists w1 (length s - 1) y) as [w2 H2]; [lia|].
  destruct (setitem_spec _ _ _ _ H2 B1 (bounded_nth _ _ _ _ _ B Hy)) as [L2 B2].
  rewrite Hx. cbn [obind]. rewrite H1. cbn [obind].
  rewrite Hy. cbn [obind]. rewrite H2. cbn [obind].
  assert (N : w2 <> []) by (destruct w2; [simpl in L2; lia | congruence]).
  destruct (np_mean_bounds lo hi w2 N B2) as (u & E & Bu).
  rewrite E. cbn [obind]. exists u. split; [reflexivity | exact Bu].
Qed.

(** Each weight is [1 / (1 + |x - median|)], with a denominator of at
    least 1, hence in (0, 1]. *)
Lemma weights_spec (l : list Q) (median : Q) :
  exists ws,
    WeightedIop.weights l median = Some ws /\
    Forall2 (fun x w => 1 <= 1 + Qabs (x - median) /\
                        w == 1 / (1 + Qabs (x - median)) /\
                        0 < w /\ w <= 1) l ws.
Proof.
  unfold WeightedIop.weights.
  induction l as [|x r (ws & E & F)]; cbn [mapM]; [eauto|].
  pose proof (Qabs_nonneg (x - median)) as A.
  rewrite np_div_some by (intros Hz; lra).
  cbn [obind]. rewrite E. cbn [obind].
  eexists. split; [reflexivity|]. constructor; [|exact F].
  split; [lra|]. split; [reflexivity|]. split.
  - apply Qlt_shift_div_l; lra.
  - apply Qle_shift_div_r; lra.
Qed.

Lemma weighted_sum_bounds (l ws : list Q) :
  Forall2 (fun (x w : Q) => 0 < w) l ws -> bounded lo hi l ->
  0 <= np_sum ws /\ (l <> [] -> 0 < np_sum ws) /\
  np_sum ws * lo <= np_sum (np_mul ws l) /\
  np_sum (np_mul ws l) <= np_sum ws * hi.
Proof.
  induction 1 as [|x w l ws Pw F IH]; intros B.
  - change (np_sum []) with 0. simpl. change (np_sum []) with 0.
    repeat split; try lra; congruence.
  - destruct (Forall_inv B) as [Lx Ux].
    destruct (IH (Forall_inv_tail B)) as (S0 & _ & L & U).
    cbn [np_mul]. rewrite !np_sum_cons.
    assert (w * lo <= w * x) by (rewrite !(Qmult_comm w); apply Qmult_le_compat_r; lra).
    assert (w * x <= w * hi) by (rewrite !(Qmult_comm w); apply Qmult_le_compat_r; lra).
    repeat split; try lra; intros _; lra.
Qed.

Lemma weighted_iop_estimate :
  estimate lo hi (WeightedIop.calculate_weighted_iop a).
Proof.
  unfold WeightedIop.calculate_weighted_iop.
  destruct np_median_bounds as (m & Em & _). rewrite Em. cbn [obind].
  destruct (weights_spec a m) as (ws & Ew & F). rewrite Ew. cbn [obind].
  assert (F' : Forall2 (fun (x w : Q) => 0 < w) a ws).
  { eapply Forall2_impl; [|exact F]. cbn. tauto. }
  destruct (weighted_sum_bounds a ws F' sample_bounded) as (_ & P & L & U).
  specialize (P Hne).
  destruct (div_between _ _ lo hi P L U) as (E & L' & U').
  rewrite E. cbn [obind]. eexists. split; [reflexivity|]. split; assumption.
Qed.

End EstimatorFacts.

(** ** The calculator *)

Section CalculatorFacts.

Import IOPCalculator.

Lemma np_array_length (l : list Q) : length (np_array l) = length l.
Proof. apply length_map. Qed.

Lemma init_ok (l : list Q) :
  (3 <= length l)%nat ->
  __init__ l = Ok (mk (np_array (sorted l)) (length l)).
Proof.
  intros L. unfold __init__.
  destruct (Nat.ltb_spec (length l) 3) as [L'|_]; [lia|].
  now rewrite np_array_length, sorted_length.
Qed.

Lemma np_var_exists (a : list Q) :
  (2 <= length a)%nat -> exists v, np_var a 1 = Some v.
Proof.
  intros L. unfold np_var.
  assert (N : a <> []) by (destruct a; [simpl in L; lia | congruence]).
  unfold np_mean. rewrite np_div_some.
  2:{ pose proof (len_pos a N). intros Hz. lra. }
  cbn [obind]. rewrite np_div_some; [eauto|].
  intros Hz. change 0 with (inject_Z 0) in Hz.
  apply (proj1 (inject_Z_injective _ _)) in Hz. lia.
Qed.

(** What [calculate_all] returns on a stored sample of at least three
    values. *)
Lemma calculate_all_spec (a : list Q) :
  (3 <= length a)%nat ->
  exists lo hi v r,
    np_min a = Some lo /\ np_max a = Some hi /\ np_var a 1 = Some v /\
    calculate_all (mk a (length a)) = Some r /\
    Forall (fun out => estimate lo hi (Some out)) (estimator_outputs r) /\
    min_iop r = round lo 1 /\ max_iop r = round hi 1 /\
    variability r = round (hi - lo) 1 /\
    std_dev r = round_sqrt v 2 /\
    n_measurements r = length a.
Proof.
  intros L.
  assert (N : a <> []) by (destruct a; [simpl in L; lia | congruence]).
  destruct (np_min_max_exist a N) as (lo & hi & Hlo & Hhi).
  destruct (np_var_exists a) as [v Hv]; [lia|].
  destruct (safe_iop_estimate a lo hi Hlo Hhi L) as (u1 & E1 & B1).
  destruct (possible_iop_estimate a lo hi N Hlo Hhi) as (u2 & E2 & B2).
  destruct (clinical_iop_estimate a lo hi Hlo Hhi) as (u3 & E3 & B3).
  destruct (mean_iop_estimate a lo hi N Hlo Hhi) as (u4 & E4 & B4).
  destruct (trimean_iop_estimate a lo hi N Hlo Hhi) as (u5 & E5 & B5).
  destruct (iqm_iop_estimate a lo hi N Hlo Hhi) as (u6 & E6 & B6).
  destruct (winsorized_iop_estimate a lo hi Hlo Hhi L) as (u7 & E7 & B7).
  destruct (weighted_iop_estimate a lo hi N Hlo Hhi) as (u8 & E8 & B8).
  exists lo, hi, v. eexists.
  split; [exact Hlo|]. split; [exact Hhi|]. split; [exact Hv|].
  split.
  - unfold calculate_all, get_range, get_variability, get_standard_deviation,
      calculate_safe_iop, calculate_possible_iop, calculate_clinical_iop,
      calculate_mean_iop, calculate_trimean_iop, calculate_iqm_iop,
      calculate_winsorized_iop, calculate_weighted_iop,
      Statistics.get_range, Statistics.get_variability,
      Statistics.get_standard_deviation.
    cbn [measurements n].
    rewrite Hlo, Hhi, Hv, E1, E2, E3, E4, E5, E6, E7, E8. cbn [obind].
    reflexivity.
  - cbn [estimator_outputs safe_iop possible_iop clinical_iop mean_iop
          trimean_iop iqm_iop winsorized_iop weighted_iop min_iop max_iop
          variability std_dev n_measurements].
    split; [|repeat split; reflexivity].
    repeat constructor; eexists; (split; [reflexivity | assumption]).
Qed.

End CalculatorFacts.

Section StoredSample.

Import IOPCalculator.

Lemma in_np_array_sorted (l : list Q) (x : Q) :
  In x (np_array (sorted l)) <-> exists y, Qred y = x /\ In y l.
Proof.
  unfold np_array. rewrite in_map_iff. split; intros (y & E & I); exists y.
  - split; [exact E|]. eapply Permutation_in; [apply sorted_perm | exact I].
  - split; [exact E|].
    eapply Permutation_in; [symmetry; apply sorted_perm | exact I].
Qed.

(** The stored sample has the minimum and maximum of the input. *)
Lemma np_min_stored (l : list Q) (lo lo' : Q) :
  np_min l = Some lo -> np_min (np_array (sorted l)) = Some lo' -> lo' == lo.
Proof.
  intros H H'.
  destruct (np_min_spec _ _ H) as [I F].
  destruct (np_min_spec _ _ H') as [I' F'].
  rewrite Forall_forall in F, F'.
  apply in_np_array_sorted in I'. destruct I' as (y & E & Iy).
  assert (lo <= lo') by (rewrite <- E, Qred_correct; now apply F).
  assert (lo' <= lo).
  { rewrite <- (Qred_correct lo). apply F'.
    apply in_np_array_sorted. now exists lo. }
  lra.
Qed.

Lemma np_max_stored (l : list Q) (hi hi' : Q) :
  np_max l = Some hi -> np_max (np_array (sorted l)) = Some hi' -> hi' == hi.
Proof.
  intros H H'.
  destruct (np_max_spec _ _ H) as [I F].
  destruct (np_max_spec _ _ H') as [I' F'].
  rewrite Forall_forall in F, F'.
  apply in_np_array_sorted in I'. destruct I' as (y & E & Iy).
  assert (hi' <= hi) by (rewrite <- E, Qred_correct; now apply F).
  assert (hi <= hi').
  { rewrite <- (Qred_correct hi). apply (F' (Qred hi)).
    apply in_np_array_sorted. now exists hi. }
  lra.
Qed.

(** The calculator built from an input of at least three values, and what
    its [calculate_all] returns, in terms of the input's own minimum and
    maximum. *)
Lemma calculator_spec (l : list Q) :
  (3 <= length l)%nat ->
  exists calc r lo hi v,
    __init__ l = Ok calc /\
    measurements calc = np_array (sorted l) /\
    calculate_all calc = Some r /\
    np_min l = Some lo /\ np_max l = Some hi /\
    np_var (measurements calc) 1 = Some v /\
    Forall (fun out => estimate lo hi (Some out)) (estimator_outputs r) /\
    min_iop r = round lo 1 /\ max_iop r = round hi 1 /\
    variability r = round (hi - lo) 1 /\
    std_dev r = round_sqrt v 2 /\
    n_measurements r = length l.
Proof.
  intros L.
  assert (La : length (np_array (sorted l)) = length l).
  { now rewrite np_array_length, sorted_length. }
  destruct (calculate_all_spec (np_array (sorted l)))
    as (lo' & hi' & v & r & Hlo' & Hhi' & Hv & Hr & Hest & Hmin & Hmax
        & Hvar & Hsd & Hn); [lia|].
  assert (N : l <> []) by (destruct l; [simpl in L; lia | congruence]).
  destruct (np_min_max_exist l N) as (lo & hi & Hlo & Hhi).
  pose proof (np_min_stored _ _ _ Hlo Hlo') as Elo.
  pose proof (np_max_stored _ _ _ Hhi Hhi') as Ehi.
  exists (mk (np_array (sorted l)) (length l)), r, lo, hi, v.
  split; [now apply init_ok|]. split; [reflexivity|].
  split; [now rewrite <- La|].
  split; [exact Hlo|]. split; [exact Hhi|]. split; [exact Hv|].
  split.
  { eapply Forall_impl; [|exact Hest].
    intros out (u & E & B1 & B2). exists u. split; [exact E|]. lra. }
  split; [rewrite Hmin; now apply round_comp|].
  split; [rewrite Hmax; now apply round_comp|].
  split; [rewrite Hvar; apply round_comp; lra|].
  split; [exact Hsd|]. now rewrite Hn.
Qed.

End StoredSample.

(** ** Range of the estimates *)

Import IOPCalculator.

(** C4, as stated, fails: the outputs are rounded to one decimal, so for
    the valid sample [12.34, 12.34, 12.34] the Safe IOP is 12.3, which lies
    below the unrounded minimum 12.34. *)
Lemma estimate_below_minimum :
  let l := [1234 # 100; 1234 # 100; 1234 # 100] in
  valid_sample l /\
  exists calc r lo,
    __init__ l = Ok calc /\ calculate_all calc = Some r /\
    np_min l = Some lo /\ safe_iop r < lo.
Proof.
  cbv zeta. split.
  - split; [simpl; lia|]. repeat constructor; unfold Qle; simpl; lia.
  - eexists. eexists. eexists.
    split; [reflexivity|]. split; [vm_compute; reflexivity|].
    split; [reflexivity|]. vm_compute. reflexivity.
Qed.

(** C4 (amended): for every valid sample, [calculate_all] returns a record
    in which each of the eight estimator outputs lies within one tenth of
    the observed range, [min - 0.1 <= output <= max + 0.1], the outputs
    being rounded to one decimal; when the minimum and the maximum
    themselves have at most one decimal, each output lies between the
    minimum and the maximum. *)
Theorem estimates_within_tenth_of_range (l : list Q) :
  valid_sample l ->
  exists calc r lo hi,
    __init__ l = Ok calc /\ calculate_all calc = Some r /\
    np_min l = Some lo /\ np_max l = Some hi /\
    Forall (fun out =>
              (lo - (1 # 10) <= out /\ out <= hi + (1 # 10)) /\
              (on_grid lo 1 -> on_grid hi 1 -> lo <= out /\ out <= hi))
           (estimator_outputs r).
Proof.
  intros [L _].
  destruct (calculator_spec l L)
    as (calc & r & lo & hi & v & Hc & _ & Hr & Hlo & Hhi & _ & Hest & _).
  exists calc, r, lo, hi.
  repeat (split; [assumption|]).
  eapply Forall_impl; [|exact Hest].
  intros out (u & [= ->] & B1 & B2).
  split; [now apply round1_between|].
  intros Glo Ghi.
  assert (R1 : round lo 1 <= round u 1) by now apply round_le.
  assert (R2 : round u 1 <= round hi 1) by now apply round_le.
  rewrite (round_on_grid _ _ Glo) in R1.
  rewrite (round_on_grid _ _ Ghi) in R2. split; assumption.
Qed.

Lemma estimates_within_tenth_of_range_witness :
  exists calc r lo hi,
    __init__ [12; 14; 13; 15; 12] = Ok calc /\ calculate_all calc = Some r /\
    np_min [12; 14; 13; 15; 12] = Some lo /\
    np_max [12; 14; 13; 15; 12] = Some hi /\
    Forall (fun out =>
              (lo - (1 # 10) <= out /\ out <= hi + (1 # 10)) /\
              (on_grid lo 1 -> on_grid hi 1 -> lo <= out /\ out <= hi))
           (estimator_outputs r).
Proof.
  apply (estimates_within_tenth_of_range [12; 14; 13; 15; 12]).
  split; [simpl; lia|].
  repeat constructor; unfold Qle; simpl; lia.
Defined.

(** ** Order of entry *)



(** ** Samples of equal values *)

Section EqualValues.

Lemma round_sqrt_comp (v v' : Q) (ndigits : nat) :
  v == v' -> round_sqrt v ndigits = round_sqrt v' ndigits.
Proof.
  intros E. unfold round_sqrt.
  set (c := inject_Z (4 * Z.pos (scale ndigits) * Z.pos (scale ndigits))).
  assert (Ew : v * c == v' * c) by now rewrite E.
  rewrite (Qfloor_comp _ _ Ew).
  set (t := Z.sqrt (Qfloor (v' * c))).
  assert (Eb : Qeq_bool (v * c) (inject_Z (t * t))
               = Qeq_bool (v' * c) (inject_Z (t * t))).
  { destruct (Qeq_bool (v' * c) (inject_Z (t * t))) eqn:B.
    - apply Qeq_bool_iff. apply Qeq_bool_iff in B. now rewrite Ew.
    - destruct (Qeq_bool (v * c) (inject_Z (t * t))) eqn:B'; [|reflexivity].
      apply Qeq_bool_iff in B'. rewrite Ew in B'.
      apply Qeq_bool_iff in B'. congruence. }
  now rewrite Eb.
Qed.

(** The variance of an array of equal values is zero. *)
Lemma np_var_equal (a : list Q) (v var : Q) :
  a <> [] -> Forall (fun x => x == v) a ->
  np_var a 1 = Some var -> var == 0.
Proof.
  intros N F. unfold np_var.
  assert (B : bounded v v a).
  { eapply Forall_impl; [|exact F]. cbn. intros x E. lra. }
  destruct (np_mean_bounds v v a N B) as (m & Em & Lm & Um).
  rewrite Em. cbn [obind].
  set (sq := map _ a).
  assert (Bs : bounded 0 0 sq).
  { unfold bounded, sq. rewrite Forall_map.
    eapply Forall_impl; [|exact F]. cbn. intros x E.
    assert (Ex : x - m == 0) by lra. rewrite Ex. lra. }
  destruct (np_sum_bounds _ _ _ Bs) as [L U].
  unfold np_div. destruct (Qeq_bool _ 0); [discriminate|].
  intros [= <-].
  assert (Es : np_sum sq == 0) by lra. rewrite Es. unfold Qdiv. lra.
Qed.

End EqualValues.

(** C7, as stated, fails: the outputs are rounded to one decimal, so for
    three readings of 12.34 the Safe IOP is 12.3, not 12.34. *)
Lemma equal_values_not_returned :
  let v := 1234 # 100 in
  0 <= v /\ v <= 100 /\
  exists calc r,
    __init__ (repeat v 3) = Ok calc /\ calculate_all calc = Some r /\
    ~ safe_iop r == v.
Proof.
  cbv zeta. split; [unfold Qle; simpl; lia|].
  split; [unfold Qle; simpl; lia|].
  eexists. eexists. split; [reflexivity|].
  split; [vm_compute; reflexivity|].
  vm_compute. discriminate.
Qed.

(** C7 (amended): for every sample of [n >= 3] equal values [v] in
    [0, 100], each of the eight estimators returns a value within one
    tenth of [v] (the outputs are rounded to one decimal), which is [v]
    itself when [v] has at most one decimal, and the sample standard
    deviation is 0. *)
Theorem equal_values_estimates (v : Q) (n : nat) :
  (3 <= n)%nat -> 0 <= v -> v <= 100 ->
  exists calc r,
    __init__ (repeat v n) = Ok calc /\ calculate_all calc = Some r /\
    Forall (fun out => Qabs (out - v) <= 1 # 10 /\ (on_grid v 1 -> out == v))
           (estimator_outputs r) /\
    std_dev r = 0.
Proof.
  intros L _ _.
  assert (Ln : (3 <= length (repeat v n))%nat) by now rewrite repeat_length.
  destruct (calculator_spec _ Ln)
    as (calc & r & lo & hi & var & Hc & Hm & Hr & Hlo & Hhi & Hv & Hest & _
        & _ & _ & Hsd & _).
  exists calc, r. split; [exact Hc|]. split; [exact Hr|].
  apply np_min_spec in Hlo. destruct Hlo as [Ilo _].
  apply np_max_spec in Hhi. destruct Hhi as [Ihi _].
  apply repeat_spec in Ilo, Ihi. subst lo hi.
  split.
  - eapply Forall_impl; [|exact Hest].
    intros out (u & [= ->] & B1 & B2).
    assert (E : u == v) by lra.
    split; [now apply round1_near|].
    rewrite (round_comp _ _ _ E). apply round_on_grid.
  - rewrite Hsd.
    assert (E : var == 0).
    { apply (np_var_equal (measurements calc) v).
      - rewrite Hm. intros E. apply (f_equal (@length Q)) in E.
        rewrite np_array_length, sorted_length in E. simpl in E. lia.
      - rewrite Hm. apply Forall_forall. intros x Hx.
        apply in_np_array_sorted in Hx. destruct Hx as (y & <- & Hy).
        apply repeat_spec in Hy. subst y. apply Qred_correct.
      - exact Hv. }
    rewrite (round_sqrt_comp _ _ _ E). reflexivity.
Qed.

Lemma equal_values_estimates_witness :
  exists calc r,
    __init__ (repeat 14 4) = Ok calc /\ calculate_all calc = Some r /\
    Forall (fun out => Qabs (out - 14) <= 1 # 10 /\ (on_grid 14 1 -> out == 14))
           (estimator_outputs r) /\
    std_dev r = 0.
Proof.
  apply (equal_values_estimates 14 4).
  - lia.
  - unfold Qle; simpl; lia.
  - unfold Qle; simpl; lia.
Defined.

(** ** Safe IOP on three readings *)

(** C5, as stated, fails: the trimmed mean of three readings is the middle
    one, but the function returns it rounded to one decimal; for
    [10, 12.34, 15] the middle value is 12.34 and Safe IOP is 12.3. *)
Lemma safe_iop_three_not_exact :
  let l := [10; 1234 # 100; 15] in
  length l = 3%nat /\
  nth_error (sorted l) 1 = Some (1234 # 100) /\
  exists out,
    SafeIop.calculate_safe_iop l = Some out /\ ~ out == 1234 # 100.
Proof.
  cbv zeta. split; [reflexivity|]. split; [reflexivity|].
  eexists. split; [vm_compute; reflexivity|].
  vm_compute. discriminate.
Qed.

(** C5 (amended): for every valid sample of exactly 3 values (all in
    [0, 100]), the divisor [n - 2] is 1 and the trimmed mean reduces to
    the middle (second-smallest) value; Safe IOP, being rounded to one
    decimal, is within one tenth of that value, and equals it when that
    value has at most one decimal. *)
Theorem safe_iop_three (l : list Q) :
  length l = 3%nat -> bounded 0 100 l ->
  exists m out,
    nth_error (sorted l) 1 = Some m /\
    inject_Z (Z.of_nat (length l) - 2) == 1 /\
    SafeIop.calculate_safe_iop l = Some out /\
    Qabs (out - m) <= 1 # 10 /\
    (on_grid m 1 -> out == m).
Proof.
  intros L _.
  destruct l as [|a [|b [|c [|? ?]]]]; try discriminate. clear L.
  unfold SafeIop.calculate_safe_iop, np_min, np_max, np_sum.
  cbn [length Nat.ltb Nat.leb fold_left sorted fold_right insert obind].
  set (d := inject_Z (Z.of_nat 3 - 2)).
  assert (Ed : d == 1) by reflexivity.
  rewrite (np_div_some _ d) by (intros Hz; lra).
  cbn [obind].
  destruct (Qmin_case a b) as [[E1 L1]|[E1 L1]]; rewrite E1;
  (destruct (Qmin_case a c) as [[E2 L2]|[E2 L2]]; try rewrite E2);
  (destruct (Qmin_case b c) as [[E3 L3]|[E3 L3]]; try rewrite E3);
  (destruct (Qmax_case a b) as [[E4 L4]|[E4 L4]]; rewrite E4);
  (destruct (Qmax_case a c) as [[E5 L5]|[E5 L5]]; try rewrite E5);
  (destruct (Qmax_case b c) as [[E6 L6]|[E6 L6]]; try rewrite E6);
  destruct (Qle_bool b c) eqn:Bbc; cbn [insert];
  destruct (Qle_bool a b) eqn:Bab; cbn [insert];
  destruct (Qle_bool a c) eqn:Bac; cbn [insert nth_error];
  repeat match goal with
         | H : Qle_bool _ _ = true |- _ => apply Qle_bool_true in H
         | H : Qle_bool _ _ = false |- _ => apply Qle_bool_false in H
         end;
  try (exfalso; lra);
  (eexists; eexists; split; [reflexivity|]; split; [exact Ed|];
   split; [reflexivity|];
   match goal with
   | |- Qabs (round ?e 1 - ?m) <= _ /\ _ =>
       assert (E : e == m)
         by (unfold Qdiv; rewrite Ed; change (/ 1) with 1; lra)
   end;
   split; [now apply round1_near|];
   rewrite (round_comp _ _ _ E); apply round_on_grid).
Qed.

Lemma safe_iop_three_witness :
  exists m out,
    nth_error (sorted [15; 10; 12]) 1 = Some m /\
    inject_Z (Z.of_nat (length [15; 10; 12]) - 2) == 1 /\
    SafeIop.calculate_safe_iop [15; 10; 12] = Some out /\
    Qabs (out - m) <= 1 # 10 /\
    (on_grid m 1 -> out == m).
Proof.
  apply (safe_iop_three [15; 10; 12]); [reflexivity|].
  repeat constructor; unfold Qle; simpl; lia.
Defined.

(** ** Weighted IOP is total *)

(** C8: for every sample of at least three values, the median exists, each
    weight [1 / (1 + |x - median|)] has a denominator of at least 1 and is
    strictly positive, the sum of the weights is strictly positive, so the
    final division does not divide by zero and [calculate_weighted_iop]
    returns a value. *)
Theorem weighted_iop_total (l : list Q) :
  (3 <= length l)%nat ->
  exists median ws,
    np_median l = Some median /\
    WeightedIop.weights l median = Some ws /\
    Forall2 (fun x w => 1 <= 1 + Qabs (x - median) /\
                        w == 1 / (1 + Qabs (x - median)) /\ 0 < w) l ws /\
    0 < np_sum ws /\
    np_div (np_sum (np_mul ws l)) (np_sum ws)
      = Some (np_sum (np_mul ws l) / np_sum ws) /\
    WeightedIop.calculate_weighted_iop l
      = Some (round (np_sum (np_mul ws l) / np_sum ws) 1).
Proof.
  intros L.
  assert (N : l <> []) by (destruct l; [simpl in L; lia | congruence]).
  destruct (np_min_max_exist l N) as (lo & hi & Hlo & Hhi).
  destruct (np_median_bounds l lo hi N Hlo Hhi) as (m & Em & _).
  destruct (weights_spec l m) as (ws & Ew & F).
  assert (F' : Forall2 (fun (x w : Q) => 0 < w) l ws).
  { eapply Forall2_impl; [|exact F]. cbn. tauto. }
  destruct (weighted_sum_bounds lo hi l ws F'
              (min_max_bounded l lo hi Hlo Hhi)) as (_ & P & _).
  specialize (P N).
  assert (D : np_div (np_sum (np_mul ws l)) (np_sum ws)
              = Some (np_sum (np_mul ws l) / np_sum ws)).
  { apply np_div_some. intros Hz. lra. }
  exists m, ws.
  split; [exact Em|]. split; [exact Ew|].
  split; [eapply Forall2_impl; [|exact F]; cbn; tauto|].
  split; [exact P|]. split; [exact D|].
  unfold WeightedIop.calculate_weighted_iop.
  rewrite Em. cbn [obind]. rewrite Ew. cbn [obind]. rewrite D. reflexivity.
Qed.

Lemma weighted_iop_total_witness :
  exists median ws,
    np_median [12; 14; 13] = Some median /\
    WeightedIop.weights [12; 14; 13] median = Some ws /\
    Forall2 (fun x w => 1 <= 1 + Qabs (x - median) /\
                        w == 1 / (1 + Qabs (x - median)) /\ 0 < w)
            [12; 14; 13] ws /\
    0 < np_sum ws /\
    np_div (np_sum (np_mul ws [12; 14; 13])) (np_sum ws)
      = Some (np_sum (np_mul ws [12; 14; 13]) / np_sum ws) /\
    WeightedIop.calculate_weighted_iop [12; 14; 13]
      = Some (round (np_sum (np_mul ws [12; 14; 13]) / np_sum ws) 1).
Proof.
  apply (weighted_iop_total [12; 14; 13]). simpl; lia.
Defined.

(** ** Validation *)

Section ValidationFacts.

Import ErrorSpec.

Lemma rstrip_empty (s : string) : rstrip s = EmptyString -> all_space s.
Proof.
  induction s as [|c r IH]; simpl; [trivial|].
  destruct (rstrip r); [|discriminate].
  destruct (isspace c); [auto | discriminate].
Qed.

Lemma lstrip_all_space (s : string) : all_space (lstrip s) -> all_space s.
Proof.
  induction s as [|c r IH]; simpl; [trivial|].
  destruct (isspace c) eqn:E; simpl; [auto|].
  rewrite E. tauto.
Qed.

Lemma split_all_space (s : string) : all_space s -> split "," s = [s].
Proof.
  induction s as [|c r IH]; simpl; [reflexivity|].
  intros [Hc Hr].
  destruct (Ascii.eqb_spec c ",") as [->|_]; [discriminate|].
  now rewrite (IH Hr).
Qed.

Lemma blank_input_no_tokens (s : string) :
  truthy (strip s) = false -> nonblank_tokens s = [].
Proof.
  intros H. unfold nonblank_tokens.
  assert (E : strip s = EmptyString) by (destruct (strip s); [reflexivity | discriminate]).
  rewrite split_all_space.
  - simpl. now rewrite H.
  - apply lstrip_all_space, rstrip_empty. exact E.
Qed.

Lemma convert_tokens_spec (tokens : list string) :
  match convert_tokens tokens with
  | Ok vs => mapM float (filter truthy (map strip tokens)) = Some vs
  | Raise e =>
      exists tok, In tok (filter truthy (map strip tokens)) /\
                  float tok = None /\ e = Could_not_convert tok
  end.
Proof.
  induction tokens as [|x rest IH]; simpl; [reflexivity|].
  destruct (truthy (strip x)) eqn:T.
  - destruct (float (strip x)) as [v|] eqn:F.
    + destruct (convert_tokens rest) as [vs|e]; simpl.
      * rewrite F, IH. reflexivity.
      * destruct IH as (tok & I & Ft & E). exists tok. auto.
    + exists (strip x). simpl. auto.
  - exact IH.
Qed.

Lemma check_values_spec (values : list pyfloat) :
  match check_values values with
  | Ok _ => Forall (fun v => out_of_range v = false) values
  | Raise e =>
      exists v, In v values /\ out_of_range v = true /\
                e = Out_of_acceptable_range v
  end.
Proof.
  induction values as [|v rest IH]; simpl; [constructor|].
  destruct (out_of_range v) eqn:O.
  - exists v. auto.
  - destruct (check_values rest).
    + now constructor.
    + destruct IH as (w & I & Ow & E). exists w. auto.
Qed.

(** Every outcome of [validate_measurements], by kind. *)
Lemma validate_measurements_cases (s : string) :
  match validate_measurements s with
  | Ok vs =>
      mapM float (nonblank_tokens s) = Some vs /\
      Forall (fun v => out_of_range v = false) vs /\
      (3 <= length vs)%nat
  | Raise e =>
      match kind_of e with
      | ParseError =>
          nonblank_tokens s = [] \/
          exists tok, In tok (nonblank_tokens s) /\ float tok = None
      | RangeError =>
          exists vs v,
            mapM float (nonblank_tokens s) = Some vs /\ In v vs /\
            out_of_range v = true /\ e = Out_of_acceptable_range v
      | InsufficientDataError =>
          exists vs,
            mapM float (nonblank_tokens s) = Some vs /\
            Forall (fun v => out_of_range v = false) vs /\
            (length vs < 3)%nat /\ e = Too_few_measurements (length vs)
      end
  end.
Proof.
  unfold validate_measurements, parse_iop_input.
  destruct (truthy s) eqn:Ts; cbn [negb orb].
  2:{ simpl. left. apply blank_input_no_tokens.
      destruct s; [reflexivity | discriminate]. }
  destruct (truthy (strip s)) eqn:Tss; cbn [negb].
  2:{ simpl. left. now apply blank_input_no_tokens. }
  pose proof (convert_tokens_spec (split "," s)) as C.
  fold (nonblank_tokens s) in C.
  destruct (convert_tokens (split "," s)) as [vs|e]; cbn [bind].
  - destruct vs as [|v vs'].
    + simpl. left.
      destruct (nonblank_tokens s) as [|tok toks]; [reflexivity|].
      simpl in C. destruct (float tok); [|discriminate].
      simpl in C. destruct (mapM float toks); discriminate.
    + pose proof (check_values_spec (v :: vs')) as V.
      destruct (check_values (v :: vs')) as [[]|e]; cbn [bind].
      * unfold validate_measurement_count, MIN_MEASUREMENTS.
        destruct (Nat.ltb_spec (length (v :: vs')) 3) as [L|L]; cbn [bind].
        -- cbn [kind_of]. exists (v :: vs'). auto.
        -- auto.
      * destruct V as (w & I & O & ->). cbn [could_not_convert_in bind kind_of].
        exists (v :: vs'), w. auto.
  - destruct C as (tok & I & F & ->). cbn [could_not_convert_in bind kind_of].
    right. exists tok. auto.
Qed.

Lemma finite_values_length (vs : list pyfloat) (qs : list Q) :
  finite_values vs = Some qs -> length qs = length vs.
Proof.
  revert qs. induction vs as [|v r IH]; simpl; intros qs E.
  - injection E as <-. reflexivity.
  - destruct v; try discriminate.
    destruct (finite_values r); [|discriminate].
    injection E as <-. simpl. now rewrite (IH l).
Qed.

End ValidationFacts.

(** C2, as stated, fails: [validate_measurements] returns the values in
    their order of entry; for the text "3, 2, 1" it returns [3, 2, 1]. *)
Lemma validate_measurements_not_sorted :
  validate_measurements "3, 2, 1" = Ok [Finite 3; Finite 2; Finite 1] /\
  finite_values [Finite 3; Finite 2; Finite 1] = Some [3; 2; 1] /\
  ~ StronglySorted Qle [3; 2; 1].
Proof.
  split; [vm_compute; reflexivity|]. split; [reflexivity|].
  intros S. inversion S as [|? ? _ F]; subst.
  inversion F as [|? ? L _]; subst.
  revert L. unfold Qle. simpl. lia.
Qed.

(** C2 (amended): for every input string on which validation succeeds,
    [validate_measurements] returns the parsed values in their order of
    entry, unsorted; the ascending sort is applied afterwards by the
    constructor of [IOPCalculator]: whenever the validated list holds no
    nan, the constructor accepts it and its stored sample is sorted
    ascending and holds the same values. *)
Theorem validate_measurements_entry_order (s : string) (vs : list pyfloat) :
  validate_measurements s = Ok vs ->
  mapM float (nonblank_tokens s) = Some vs /\
  forall qs, finite_values vs = Some qs ->
    exists calc,
      __init__ qs = Ok calc /\
      StronglySorted Qle (measurements calc) /\
      Permutation (measurements calc) (np_array qs).
Proof.
  intros H. pose proof (validate_measurements_cases s) as C.
  rewrite H in C. destruct C as (M & _ & L).
  split; [exact M|]. intros qs Hq.
  apply finite_values_length in Hq.
  exists (mk (np_array (sorted qs)) (length qs)).
  split; [apply init_ok; lia|]. cbn [measurements]. split.
  - apply np_array_sorted, sorted_sorted.
  - unfold np_array. apply Permutation_map, sorted_perm.
Qed.

Lemma validate_measurements_entry_order_witness :
  mapM float (nonblank_tokens "3, 2, 1")
    = Some [Finite 3; Finite 2; Finite 1] /\
  forall qs, finite_values [Finite 3; Finite 2; Finite 1] = Some qs ->
    exists calc,
      __init__ qs = Ok calc /\
      StronglySorted Qle (measurements calc) /\
      Permutation (measurements calc) (np_array qs).
Proof.
  apply (validate_measurements_entry_order "3, 2, 1").
  vm_compute. reflexivity.
Defined.

(** C3: the input "nan, 12, 13" passes validation.  [float] accepts the
    token "nan", and both comparisons of the range check are false for a
    nan, so the validated sample holds a value that is neither a decimal
    number nor within [0, 100]. *)
Theorem validate_measurements_accepts_nan :
  float "nan" = Some NaN /\
  out_of_range NaN = false /\
  validate_measurements "nan, 12, 13" = Ok [NaN; Finite 12; Finite 13] /\
  finite_values [NaN; Finite 12; Finite 13] = None.
Proof. repeat split; vm_compute; reflexivity. Qed.

(** ** The worked example *)

(** C6, as stated, fails in its first part: validation of
    "12, 14, 13, 15, 12" does not yield the sorted sample. *)
Lemma worked_example_not_sorted_by_validation :
  validate_measurements "12, 14, 13, 15, 12"
  <> Ok [Finite 12; Finite 12; Finite 13; Finite 14; Finite 15].
Proof. vm_compute. discriminate. Qed.

(** C6 (amended): for the input text "12, 14, 13, 15, 12", validation
    yields [12, 14, 13, 15, 12] in order of entry; the calculator stores
    the sample sorted, [12, 12, 13, 14, 15], and computes Safe IOP 13.0,
    Mean IOP 13.2, Possible IOP 13.0, Clinical IOP 13.5 and
    range/variability 3.0, for which the confidence note is the Good
    tier. *)
Theorem worked_example :
  validate_measurements "12, 14, 13, 15, 12"
    = Ok [Finite 12; Finite 14; Finite 13; Finite 15; Finite 12] /\
  finite_values [Finite 12; Finite 14; Finite 13; Finite 15; Finite 12]
    = Some [12; 14; 13; 15; 12] /\
  exists calc r,
    __init__ [12; 14; 13; 15; 12] = Ok calc /\
    measurements calc = [12; 12; 13; 14; 15] /\
    calculate_all calc = Some r /\
    safe_iop r = 13 /\
    mean_iop r = 66 # 5 /\
    possible_iop r = 13 /\
    clinical_iop r = 27 # 2 /\
    variability r = 3 /\
    get_confidence_note calc
      = Some "Good measurement consistency - Moderate confidence"%string.
Proof.
  split; [vm_compute; reflexivity|]. split; [reflexivity|].
  eexists. eexists.
  split; [reflexivity|]. split; [vm_compute; reflexivity|].
  split; [vm_compute; reflexivity|].
  repeat split; vm_compute; reflexivity.
Qed.

(** * Further properties of the code *)

(** ** Status colour of a classified value *)

(** X1: the colour shown for a classified value: red exactly for the
    hypotony categories (0 <= v < 10), green for the normal range
    (10 <= v < 21), orange for every elevated category and for a negative
    value, which the classifier labels Severely Elevated. *)
Theorem status_color_of_value (v : Q) :
  (0 <= v -> v < 10 ->
   get_status_color (Interpretation.interpret_iop v) = "red"%string) /\
  (10 <= v -> v < 21 ->
   get_status_color (Interpretation.interpret_iop v) = "green"%string) /\
  (v < 0 \/ 21 <= v ->
   get_status_color (Interpretation.interpret_iop v) = "orange"%string).
Proof.
  destruct (interpret_iop_cases v)
    as (Cn & C0 & C6 & C8 & C10 & C21 & C24 & C30).
  split; [|split].
  - intros L U.
    destruct (Qlt_le_dec v 6); [rewrite C0 by lra; reflexivity|].
    destruct (Qlt_le_dec v 8); [rewrite C6 by lra; reflexivity|].
    rewrite C8 by lra. reflexivity.
  - intros L U. rewrite C10 by lra. reflexivity.
  - intros [N|L].
    + rewrite Cn by lra. reflexivity.
    + destruct (Qlt_le_dec v 24); [rewrite C21 by lra; reflexivity|].
      destruct (Qlt_le_dec v 30); [rewrite C24 by lra; reflexivity|].
      rewrite C30 by lra. reflexivity.
Qed.

Lemma status_color_of_value_witness :
  get_status_color (Interpretation.interpret_iop 7) = "red"%string /\
  get_status_color (Interpretation.interpret_iop 15) = "green"%string /\
  get_status_color (Interpretation.interpret_iop (-3)) = "orange"%string.
Proof.
  destruct (status_color_of_value 7) as (R & _ & _).
  destruct (status_color_of_value 15) as (_ & G & _).
  destruct (status_color_of_value (-3)) as (_ & _ & O).
  split; [apply R; unfold Qle, Qlt; simpl; lia|].
  split; [apply G; unfold Qle, Qlt; simpl; lia|].
  apply O. left. unfold Qlt; simpl; lia.
Defined.

(** ** Confidence note of a calculator *)

Section ConfidenceFacts.

Import IOPCalculator.

Lemma get_variability_stored (l : list Q) (lo hi : Q) :
  np_min l = Some lo -> np_max l = Some hi ->
  Statistics.get_variability (np_array (sorted l))
  = Some (round (hi - lo) 1).
Proof.
  intros Hlo Hhi.
  assert (N : np_array (sorted l) <> []).
  { intros E. apply (f_equal (@length Q)) in E.
    rewrite np_array_length, sorted_length in E.
    destruct l; [discriminate | discriminate]. }
  destruct (np_min_max_exist _ N) as (lo' & hi' & Hlo' & Hhi').
  unfold Statistics.get_variability. rewrite Hlo', Hhi'. cbn [obind].
  f_equal. apply round_comp.
  rewrite (np_min_stored _ _ _ Hlo Hlo'), (np_max_stored _ _ _ Hhi Hhi').
  reflexivity.
Qed.

End ConfidenceFacts.

(** X2: the confidence note of a calculator, in terms of the true range
    (maximum minus minimum of the readings): Excellent for a range of at
    most 2, Good from 2.1 to 4, Fair from 4.1 to 6, High variability from
    6.1 on.  The note is decided by the range rounded to one decimal, so in
    the tenth above each threshold the tier depends on the rounding. *)
Theorem confidence_note_thresholds (l : list Q) :
  (3 <= length l)%nat ->
  exists calc lo hi,
    __init__ l = Ok calc /\ np_min l = Some lo /\ np_max l = Some hi /\
    (hi - lo <= 2 ->
     get_confidence_note calc
     = Some "Excellent measurement consistency - High confidence"%string) /\
    (21 # 10 <= hi - lo -> hi - lo <= 4 ->
     get_confidence_note calc
     = Some "Good measurement consistency - Moderate confidence"%string) /\
    (41 # 10 <= hi - lo -> hi - lo <= 6 ->
     get_confidence_note calc
     = Some "Fair measurement consistency - Consider additional measurements"%string) /\
    (61 # 10 <= hi - lo ->
     get_confidence_note calc
     = Some "High variability detected - Additional measurements recommended"%string).
Proof.
  intros L.
  assert (N : l <> []) by (destruct l; [simpl in L; lia | congruence]).
  destruct (np_min_max_exist l N) as (lo & hi & Hlo & Hhi).
  exists (mk (np_array (sorted l)) (length l)), lo, hi.
  split; [now apply init_ok|]. split; [exact Hlo|]. split; [exact Hhi|].
  unfold get_confidence_note, get_variability. cbn [measurements].
  rewrite (get_variability_stored l lo hi Hlo Hhi). cbn [obind].
  unfold Interpretation.get_confidence_note, VARIABILITY_THRESHOLDS.
  pose proof (round_le (hi - lo) 2 1) as U2.
  pose proof (round_le (hi - lo) 4 1) as U4.
  pose proof (round_le (hi - lo) 6 1) as U6.
  pose proof (round_le (21 # 10) (hi - lo) 1) as L2.
  pose proof (round_le (41 # 10) (hi - lo) 1) as L4.
  pose proof (round_le (61 # 10) (hi - lo) 1) as L6.
  change (round 2 1) with 2 in U2. change (round 4 1) with 4 in U4.
  change (round 6 1) with 6 in U6.
  change (round (21 # 10) 1) with (21 # 10) in L2.
  change (round (41 # 10) 1) with (41 # 10) in L4.
  change (round (61 # 10) 1) with (61 # 10) in L6.
  set (r := round (hi - lo) 1) in *.
  change (inject_Z 2) with 2. change (inject_Z 4) with 4.
  change (inject_Z 6) with 6.
  destruct (Qle_bool r 2) eqn:B2; destruct (Qle_bool r 4) eqn:B4;
    destruct (Qle_bool r 6) eqn:B6;
    repeat match goal with
           | H : Qle_bool _ _ = true |- _ => apply Qle_bool_true in H
           | H : Qle_bool _ _ = false |- _ => apply Qle_bool_false in H
           end;
    repeat split; intros; try reflexivity; exfalso;
    repeat match goal with
           | H : ?a <= ?b -> _, H' : ?a <= ?b |- _ => specialize (H H')
           end;
    lra.
Qed.

Lemma confidence_note_thresholds_witness :
  exists calc lo hi,
    __init__ [12; 14; 13] = Ok calc /\
    np_min [12; 14; 13] = Some lo /\ np_max [12; 14; 13] = Some hi /\
    (hi - lo <= 2 ->
     get_confidence_note calc
     = Some "Excellent measurement consistency - High confidence"%string) /\
    (21 # 10 <= hi - lo -> hi - lo <= 4 ->
     get_confidence_note calc
     = Some "Good measurement consistency - Moderate confidence"%string) /\
    (41 # 10 <= hi - lo -> hi - lo <= 6 ->
     get_confidence_note calc
     = Some "Fair measurement consistency - Consider additional measurements"%string) /\
    (61 # 10 <= hi - lo ->
     get_confidence_note calc
     = Some "High variability detected - Additional measurements recommended"%string).
Proof.
  apply (confidence_note_thresholds [12; 14; 13]). simpl; lia.
Defined.

(** ** Outcomes of validation *)

Section OutcomeFacts.

Lemma all_space_lstrip (s : string) : all_space s -> lstrip s = EmptyString.
Proof.
  induction s as [|c r IH]; simpl; [reflexivity|].
  intros [Hc Hr]. rewrite Hc. auto.
Qed.

Lemma all_space_iff (s : string) :
  all_space s <-> truthy (strip s) = false.
Proof.
  split.
  - intros A. unfold strip. now rewrite all_space_lstrip.
  - intros T. apply lstrip_all_space, rstrip_empty.
    fold (strip s). destruct (strip s); [reflexivity | discriminate].
Qed.

Lemma all_space_no_tokens (s : string) :
  all_space s -> nonblank_tokens s = [].
Proof. intros A. now apply blank_input_no_tokens, all_space_iff. Qed.

Lemma mapM_length {A B : Type} (f : A -> option B) (l : list A) (l' : list B) :
  mapM f l = Some l' -> length l' = length l.
Proof.
  revert l'. induction l as [|x r IH]; simpl; intros l' E.
  - injection E as <-. reflexivity.
  - destruct (f x); [|discriminate]. simpl in E.
    destruct (mapM f r) as [ys|]; [|discriminate]. simpl in E.
    injection E as <-. simpl. now rewrite (IH ys).
Qed.

Lemma mapM_some_all {A B : Type} (f : A -> option B) (l : list A) (l' : list B) :
  mapM f l = Some l' -> forall x, In x l -> f x <> None.
Proof.
  revert l'. induction l as [|x r IH]; simpl; intros l' E y I; [contradiction|].
  destruct (f x) eqn:Fx; [|discriminate]. simpl in E.
  destruct (mapM f r) as [ys|]; [|discriminate].
  destruct I as [<-|I]; [congruence|]. now apply (IH ys).
Qed.

(** The range loop stops at the first value out of bounds. *)
Lemma check_values_first (values : list pyfloat) (e : ValueError) :
  check_values values = Raise e ->
  exists pre v post,
    values = pre ++ v :: post /\ Forall in_bounds pre /\
    out_of_range v = true /\ e = Out_of_acceptable_range v.
Proof.
  induction values as [|w rest IH]; simpl; [discriminate|].
  destruct (out_of_range w) eqn:O.
  - intros [= <-]. exists [], w, rest. repeat split; auto.
  - intros E. destruct (IH E) as (pre & v & post & -> & F & Ov & ->).
    exists (w :: pre), v, post. repeat split; auto; now constructor.
Qed.

Lemma first_out_of_bounds_unique (pre pre' post post' : list pyfloat)
      (v v' : pyfloat) :
  pre ++ v :: post = pre' ++ v' :: post' ->
  Forall in_bounds pre -> Forall in_bounds pre' ->
  out_of_range v = true -> out_of_range v' = true ->
  pre = pre' /\ v = v' /\ post = post'.
Proof.
  revert pre'. induction pre as [|x pre IH]; intros pre' E F F' O O'.
  - destruct pre' as [|y pre']; simpl in E.
    + injection E as -> ->. auto.
    + injection E as -> _. apply Forall_inv in F'.
      unfold in_bounds in F'. congruence.
  - destruct pre' as [|y pre']; simpl in E.
    + injection E as -> _. apply Forall_inv in F.
      unfold in_bounds in F. congruence.
    + injection E as -> E.
      destruct (IH pre' E (Forall_inv_tail F) (Forall_inv_tail F') O O')
        as (-> & -> & ->). auto.
Qed.

(** The result of validation satisfies its outcome. *)
Lemma validate_measurements_outcome (s : string) :
  outcome s (validate_measurements s).
Proof.
  unfold validate_measurements, parse_iop_input.
  destruct (truthy s) eqn:Ts; cbn [negb orb].
  2:{ destruct s; [exact I | discriminate]. }
  destruct (truthy (strip s)) eqn:Tss; cbn [negb].
  2:{ cbn [bind outcome]. now apply all_space_iff. }
  assert (NA : ~ all_space s).
  { intros A. apply all_space_iff in A. congruence. }
  pose proof (convert_tokens_spec (split "," s)) as C.
  fold (nonblank_tokens s) in C.
  destruct (convert_tokens (split "," s)) as [vs|e]; cbn [bind].
  - destruct vs as [|v vs'].
    + cbn [bind outcome]. split; [exact NA|].
      apply mapM_length in C. destruct (nonblank_tokens s); [reflexivity|].
      discriminate.
    + destruct (check_values (v :: vs')) as [[]|e] eqn:V; cbn [bind].
      * pose proof (check_values_spec (v :: vs')) as F. rewrite V in F.
        unfold validate_measurement_count, MIN_MEASUREMENTS.
        destruct (Nat.ltb_spec (length (v :: vs')) 3) as [L|L];
          cbn [bind outcome].
        -- exists (v :: vs'). repeat split; auto; simpl; lia.
        -- auto.
      * destruct (check_values_first _ _ V) as (pre & w & post & E & F & O & ->).
        cbn [could_not_convert_in bind outcome].
        exists pre, post. rewrite <- E. auto.
  - destruct C as (tok & I & F & ->).
    cbn [could_not_convert_in bind outcome]. eauto.
Qed.

Lemma in_bounds_middle (pre post : list pyfloat) (v : pyfloat) :
  Forall in_bounds (pre ++ v :: post) -> out_of_range v = true -> False.
Proof.
  intros F O. apply Forall_app in F. destruct F as [_ F].
  apply Forall_inv in F. unfold in_bounds in F. congruence.
Qed.

(** An input has one outcome only. *)
Lemma outcome_unique (s : string) (r1 r2 : result (list pyfloat)) :
  outcome s r1 -> outcome s r2 -> r1 = r2.
Proof.
  unfold outcome.
  destruct r1 as [vs1|e1]; destruct r2 as [vs2|e2];
    try destruct e1; try destruct e2; intros O1 O2;
    repeat match goal with
           | H : False |- _ => contradiction
           | H : exists _, _ |- _ => destruct H
           | H : _ /\ _ |- _ => destruct H
           end;
    try match goal with
        | A : all_space s |- _ =>
            pose proof (all_space_no_tokens s A)
        end;
    try tauto;
    repeat match goal with
           | H : nonblank_tokens s = [] |- _ => rewrite H in *
           | H : In _ [] |- _ => contradiction
           end;
    repeat match goal with
           | H1 : mapM float ?t = Some ?a, H2 : mapM float ?t = Some ?b |- _ =>
               assert (a = b) by congruence; clear H2
           | H1 : mapM float ?t = Some _, H2 : In ?x ?t, H3 : float ?x = None |- _ =>
               exfalso; exact (mapM_some_all _ _ _ H1 x H2 H3)
           end;
    subst;
    repeat match goal with
           | H : mapM float [] = Some _ |- _ =>
               simpl in H; injection H as H; subst
           end;
    simpl in *; try lia; try reflexivity; try discriminate;
    try match goal with
        | H : Forall in_bounds (_ ++ ?v :: _), O : out_of_range ?v = true |- _ =>
            exfalso; exact (in_bounds_middle _ _ _ H O)
        | H : [] = ?p ++ _ :: _ |- _ => destruct p; discriminate
        | H : Some [] = Some (?p ++ _ :: _) |- _ => destruct p; discriminate
        | H : ?p ++ ?v :: ?q = ?p' ++ ?v' :: ?q' |- _ =>
            destruct (first_out_of_bounds_unique p p' q q' v v' H)
              as (_ & -> & _); auto
        end.
Qed.

End OutcomeFacts.

Section OutcomeIff.

Lemma validate_measurements_iff (s : string) (r : result (list pyfloat)) :
  validate_measurements s = r <-> outcome s r.
Proof.
  split.
  - intros <-. apply validate_measurements_outcome.
  - intros O. eapply outcome_unique; [apply validate_measurements_outcome | exact O].
Qed.

Lemma in_bounds_cases (v : pyfloat) :
  in_bounds v ->
  v = NaN \/ exists q, v = Finite q /\ 0 <= q /\ q <= 100.
Proof.
  unfold in_bounds, out_of_range, MIN_IOP_VALUE, MAX_IOP_VALUE.
  destruct v as [q|[|]|]; simpl; try discriminate; [|now left].
  intros H. right. exists q. split; [reflexivity|].
  apply orb_false_elim in H. destruct H as [H0 H100].
  apply negb_false_iff in H0, H100.
  apply Qle_bool_true in H0, H100.
  change (inject_Z 0) with 0 in H0. change (inject_Z 100) with 100 in H100.
  split; assumption.
Qed.

End OutcomeIff.

(** X3: validation succeeds exactly when every non-blank token converts,
    no converted value fails the range test and at least three values
    remain; the result is then the converted values, token by token. *)
Theorem validate_measurements_success (s : string) (vs : list pyfloat) :
  validate_measurements s = Ok vs <->
  mapM float (nonblank_tokens s) = Some vs /\
  Forall (fun v => out_of_range v = false) vs /\
  (3 <= length vs)%nat.
Proof. apply (validate_measurements_iff s (Ok vs)). Qed.

(** X4: every validated list has at least three values, never holds an
    infinity, and each of its values is a finite number of [0, 100] or a
    nan; when no nan is present it is a valid sample. *)
Theorem validated_values (s : string) (vs : list pyfloat) :
  validate_measurements s = Ok vs ->
  (3 <= length vs)%nat /\
  Forall (fun v => v = NaN \/ exists q, v = Finite q /\ 0 <= q /\ q <= 100) vs /\
  (forall qs, finite_values vs = Some qs -> valid_sample qs).
Proof.
  intros H. apply validate_measurements_iff in H. destruct H as (_ & F & L).
  split; [exact L|]. split.
  - eapply Forall_impl; [|exact F]. intros v. apply in_bounds_cases.
  - intros qs Hq. split; [rewrite (finite_values_length _ _ Hq); exact L|].
    clear L. revert qs Hq.
    induction F as [|v r Fv Fr IH]; simpl; intros qs Hq.
    + injection Hq as <-. constructor.
    + destruct v as [q| |]; try discriminate.
      destruct (finite_values r) as [qs'|]; [|discriminate].
      injection Hq as <-.
      destruct (in_bounds_cases _ Fv) as [E|(q' & [= <-] & B)]; [discriminate|].
      constructor; [exact B | now apply IH].
Qed.

Lemma validated_values_witness :
  (3 <= length [Finite 3; Finite 2; Finite 1])%nat /\
  Forall (fun v => v = NaN \/ exists q, v = Finite q /\ 0 <= q /\ q <= 100)
         [Finite 3; Finite 2; Finite 1] /\
  (forall qs, finite_values [Finite 3; Finite 2; Finite 1] = Some qs ->
              valid_sample qs).
Proof.
  apply (validated_values "3, 2, 1"). vm_compute. reflexivity.
Defined.

(** X5: the two errors for an input without values.  "Input cannot be
    empty" is raised exactly for an input of whitespace only (the empty
    string included); "No valid values found" exactly for an input that
    has some other character but no non-blank token (commas and
    whitespace only). *)
Theorem validate_measurements_no_values (s : string) :
  (validate_measurements s = Raise Input_cannot_be_empty <-> all_space s) /\
  (validate_measurements s = Raise No_valid_values_found <->
   ~ all_space s /\ nonblank_tokens s = []).
Proof.
  split.
  - apply (validate_measurements_iff s (Raise Input_cannot_be_empty)).
  - apply (validate_measurements_iff s (Raise No_valid_values_found)).
Qed.

(** X6: a token that [float] rejects decides the outcome, whatever the
    other tokens are: validation raises "Invalid number format" exactly
    when some non-blank token does not convert, before any range or count
    check; the error raised by [float] itself never leaves the validator. *)
Theorem validate_measurements_format_error (s : string) :
  (validate_measurements s = Raise Invalid_number_format <->
   exists tok, In tok (nonblank_tokens s) /\ float tok = None) /\
  (forall tok, validate_measurements s <> Raise (Could_not_convert tok)).
Proof.
  split.
  - apply (validate_measurements_iff s (Raise Invalid_number_format)).
  - intros tok H. apply validate_measurements_iff in H. exact H.
Qed.

(** X7: the range error names the first value, in order of entry, that
    fails the range test, and it is raised whenever all tokens convert and
    some value fails the test, however few values there are. *)
Theorem validate_measurements_range_error (s : string) (v : pyfloat) :
  validate_measurements s = Raise (Out_of_acceptable_range v) <->
  exists pre post,
    mapM float (nonblank_tokens s) = Some (pre ++ v :: post) /\
    Forall (fun w => out_of_range w = false) pre /\
    out_of_range v = true.
Proof. apply (validate_measurements_iff s (Raise (Out_of_acceptable_range v))). Qed.

(** X8: the count error is raised exactly when all tokens convert, all
    values pass the range test and one or two values remain; it reports
    the number of non-blank tokens. *)
Theorem validate_measurements_count_error (s : string) (k : nat) :
  validate_measurements s = Raise (Too_few_measurements k) <->
  (exists vs,
     mapM float (nonblank_tokens s) = Some vs /\
     Forall (fun v => out_of_range v = false) vs) /\
  k = length (nonblank_tokens s) /\ (1 <= k < 3)%nat.
Proof.
  rewrite (validate_measurements_iff s (Raise (Too_few_measurements k))).
  cbn [outcome]. split.
  - intros (vs & M & F & -> & L).
    split; [eauto|]. split; [exact (mapM_length _ _ _ M) | exact L].
  - intros ((vs & M & F) & -> & L).
    exists vs. rewrite (mapM_length _ _ _ M). auto.
Qed.

(** ** Blank tokens *)

Section BlankTokens.

Local Open Scope string_scope.

Lemma split_not_nil (sep : ascii) (s : string) : split sep s <> [].
Proof.
  destruct s as [|c r]; simpl; [discriminate|].
  destruct (Ascii.eqb c sep); [discriminate|].
  destruct (split sep r); discriminate.
Qed.

Lemma split_trailing_comma (s : string) :
  split "," (s ++ ",") = (split "," s ++ [""])%list.
Proof.
  induction s as [|c r IH]; [reflexivity|].
  cbn [append split]. rewrite IH.
  destruct (Ascii.eqb c ","); [reflexivity|].
  pose proof (split_not_nil "," r) as N.
  destruct (split "," r); [congruence | reflexivity].
Qed.

Lemma nonblank_tokens_trailing_comma (s : string) :
  nonblank_tokens (s ++ ",") = nonblank_tokens s.
Proof.
  unfold nonblank_tokens.
  rewrite split_trailing_comma, map_app, filter_app. simpl.
  apply app_nil_r.
Qed.

Lemma nonblank_tokens_leading_comma (s : string) :
  nonblank_tokens ("," ++ s) = nonblank_tokens s.
Proof. reflexivity. Qed.

Lemma all_space_app (s t : string) : all_space (s ++ t) -> all_space t.
Proof. induction s as [|c r IH]; simpl; [auto | tauto]. Qed.

(** For inputs that are not blank, the outcome depends on the non-blank
    tokens only. *)
Lemma outcome_by_tokens (s1 s2 : string) :
  ~ all_space s1 -> ~ all_space s2 ->
  nonblank_tokens s1 = nonblank_tokens s2 ->
  validate_measurements s1 = validate_measurements s2.
Proof.
  intros N1 N2 E. symmetry. apply validate_measurements_iff.
  pose proof (validate_measurements_outcome s1) as O.
  destruct (validate_measurements s1) as [vs|[]]; cbn [outcome] in *;
    try rewrite <- E; try exact O.
  - contradiction.
  - destruct O as [_ O]. auto.
Qed.

End BlankTokens.

(** X9: a comma before or after an input that is not blank changes
    nothing: the empty token it adds is discarded, so the result, value or
    error, is the same. *)
Theorem validate_measurements_extra_comma (s : string) :
  ~ all_space s ->
  validate_measurements (s ++ ",") = validate_measurements s /\
  validate_measurements ("," ++ s) = validate_measurements s.
Proof.
  intros N. split.
  - apply outcome_by_tokens.
    + intros A. apply all_space_app in A. simpl in A. destruct A. discriminate.
    + exact N.
    + apply nonblank_tokens_trailing_comma.
  - apply outcome_by_tokens.
    + simpl. intros [A _]. discriminate.
    + exact N.
    + apply nonblank_tokens_leading_comma.
Qed.

Lemma validate_measurements_extra_comma_witness :
  validate_measurements ("10, 12" ++ ",") = validate_measurements "10, 12" /\
  validate_measurements ("," ++ "10, 12") = validate_measurements "10, 12".
Proof.
  apply (validate_measurements_extra_comma "10, 12").
  simpl. intros [A _]. discriminate.
Defined.

(** ** Dispersion statistics *)

Section DispersionFacts.





End DispersionFacts.





(** ** Interquartile mean *)

Section IqmFacts.

Lemma iqm_bounds (n : nat) :
  (1 <= n)%nat ->
  (n / 4 < (3 * n + 3) / 4)%nat /\ ((3 * n + 3) / 4 <= n)%nat.
Proof.
  intros L.
  pose proof (Nat.div_mod_eq n 4) as E1.
  pose proof (Nat.mod_upper_bound n 4) as U1.
  pose proof (Nat.div_mod_eq (3 * n + 3) 4) as E2.
  pose proof (Nat.mod_upper_bound (3 * n + 3) 4) as U2.
  lia.
Qed.

Lemma slice_length (a : list Q) (i j : nat) :
  (j <= length a)%nat -> length (slice a i j) = (j - i)%nat.
Proof.
  intros L. unfold slice. rewrite length_firstn, length_skipn. lia.
Qed.

Lemma slice_all (a : list Q) : slice a 0 (length a) = a.
Proof. unfold slice. rewrite Nat.sub_0_r. simpl. apply firstn_all. Qed.

End IqmFacts.

(** X12: for every non-empty sample of [n] values the interquartile slice
    holds [ceil(3n/4) - floor(n/4) >= 1] values, so the fallback to the
    full-sample mean is never taken and the IQM is the mean of that slice
    of the sorted sample, rounded to one decimal. *)
Theorem iqm_slice_not_empty (l : list Q) :
  l <> [] ->
  let n := length l in
  let iqr_data := slice (sorted l) (n / 4) ((3 * n + 3) / 4) in
  length iqr_data = ((3 * n + 3) / 4 - n / 4)%nat /\
  (1 <= length iqr_data)%nat /\
  exists m,
    np_mean iqr_data = Some m /\
    IqmIop.calculate_iqm_iop l = Some (round m 1).
Proof.
  intros N n iqr_data.
  assert (Ln : (1 <= n)%nat).
  { unfold n. destruct l; [congruence | simpl; lia]. }
  destruct (iqm_bounds n Ln) as [B1 B2].
  assert (Len : length iqr_data = ((3 * n + 3) / 4 - n / 4)%nat).
  { unfold iqr_data. apply slice_length. now rewrite sorted_length. }
  split; [exact Len|]. split; [lia|].
  assert (Ni : iqr_data <> []).
  { intros E. rewrite E in Len. change (@length Q []) with 0%nat in Len. lia. }
  exists (np_sum iqr_data / len iqr_data). split.
  - unfold np_mean. apply np_div_some.
    pose proof (len_pos iqr_data Ni). intros Hz. lra.
  - unfold IqmIop.calculate_iqm_iop. rewrite sorted_length.
    fold n. fold iqr_data.
    destruct (Nat.eqb_spec (length iqr_data) 0) as [Z0|_]; [lia|].
    unfold np_mean. rewrite np_div_some.
    + reflexivity.
    + pose proof (len_pos iqr_data Ni). intros Hz. lra.
Qed.

Lemma iqm_slice_not_empty_witness :
  let n := length [10; 20; 30; 35; 11; 40] in
  let iqr_data :=
    slice (sorted [10; 20; 30; 35; 11; 40]) (n / 4) ((3 * n + 3) / 4) in
  length iqr_data = ((3 * n + 3) / 4 - n / 4)%nat /\
  (1 <= length iqr_data)%nat /\
  exists m,
    np_mean iqr_data = Some m /\
    IqmIop.calculate_iqm_iop [10; 20; 30; 35; 11; 40] = Some (round m 1).
Proof.
  apply (iqm_slice_not_empty [10; 20; 30; 35; 11; 40]). discriminate.
Defined.

(** X13: on a sample held in ascending order, as the calculator stores
    it, with one, two or three values the interquartile slice is the whole
    sample, so the IQM trims nothing and is the Mean IOP of that sample. *)
Theorem iqm_is_mean_up_to_three (l : list Q) :
  StronglySorted Qle l -> (1 <= length l <= 3)%nat ->
  IqmIop.calculate_iqm_iop l = MeanIop.calculate_mean_iop l.
Proof.
  intros S L.
  unfold IqmIop.calculate_iqm_iop, MeanIop.calculate_mean_iop.
  rewrite (sorted_id l S).
  assert (H : (length l / 4 = 0 /\ (3 * length l + 3) / 4 = length l)%nat).
  { destruct l as [|a [|b [|c [|d r]]]]; simpl in L; try lia;
      split; reflexivity. }
  destruct H as [-> ->]. rewrite slice_all.
  destruct (Nat.eqb_spec (length l) 0) as [Z0|_]; [lia | reflexivity].
Qed.

Lemma iqm_is_mean_up_to_three_witness :
  IqmIop.calculate_iqm_iop [10; 12; 15]
  = MeanIop.calculate_mean_iop [10; 12; 15].
Proof.
  apply (iqm_is_mean_up_to_three [10; 12; 15]).
  - repeat constructor; unfold Qle; simpl; lia.
  - simpl; lia.
Defined.

(** ** Winsorized mean on three readings *)

(** X14: on exactly three readings in [0, 100] both extremes are replaced
    by the middle value [m], so the Winsorized IOP is the Mean IOP of
    [m, m, m]; when [m] has at most one decimal it equals the Possible
    IOP (the median). *)
Theorem winsorized_three_is_median (l : list Q) :
  length l = 3%nat -> bounded 0 100 l ->
  exists m,
    nth_error (sorted l) 1 = Some m /\
    WinsorizedIop.calculate_winsorized_iop l
    = MeanIop.calculate_mean_iop [m; m; m] /\
    (on_grid m 1 ->
     WinsorizedIop.calculate_winsorized_iop l
     = PossibleIop.calculate_possible_iop l).
Proof.
  intros L _.
  pose proof (sorted_length l) as Ls. rewrite L in Ls.
  unfold WinsorizedIop.calculate_winsorized_iop,
    PossibleIop.calculate_possible_iop, MeanIop.calculate_mean_iop, np_median.
  rewrite L.
  destruct (sorted l) as [|x [|y [|z [|? ?]]]]; try discriminate.
  exists y. split; [reflexivity|].
  cbn [Nat.ltb Nat.leb length Nat.sub nth_error setitem obind Nat.even
       Nat.div Nat.divmod fst].
  split; [reflexivity|]. intros _.
  unfold np_mean. rewrite np_div_some by (intros Hz; discriminate).
  cbn [obind]. f_equal. apply round_comp.
  unfold np_sum, len. cbn [fold_left length].
  change (inject_Z (Z.of_nat 3)) with 3. field.
Qed.

Lemma winsorized_three_is_median_witness :
  exists m,
    nth_error (sorted [15; 10; 12]) 1 = Some m /\
    WinsorizedIop.calculate_winsorized_iop [15; 10; 12]
    = MeanIop.calculate_mean_iop [m; m; m] /\
    (on_grid m 1 ->
     WinsorizedIop.calculate_winsorized_iop [15; 10; 12]
     = PossibleIop.calculate_possible_iop [15; 10; 12]).
Proof.
  apply (winsorized_three_is_median [15; 10; 12]); [reflexivity|].
  repeat constructor; unfold Qle; simpl; lia.
Defined.

(** ** From validated text to the classified Safe IOP *)

Section PipelineFacts.

Lemma finite_values_bounded (vs : list pyfloat) (qs : list Q) :
  Forall in_bounds vs -> finite_values vs = Some qs -> bounded 0 100 qs.
Proof.
  intros F. revert qs.
  induction F as [|v r Fv Fr IH]; simpl; intros qs Hq.
  - injection Hq as <-. constructor.
  - destruct v as [q| |]; try discriminate.
    destruct (finite_values r) as [qs'|]; [|discriminate].
    injection Hq as <-.
    destruct (in_bounds_cases _ Fv) as [E|(q' & [= <-] & B)]; [discriminate|].
    constructor; [exact B | now apply IH].
Qed.

Lemma interpret_iop_severe (v : Q) :
  0 <= v ->
  (Interpretation.interpret_iop v = "Severely Elevated"%string <-> 30 <= v).
Proof.
  intros V.
  destruct (interpret_iop_cases v) as (_ & C0 & C6 & C8 & C10 & C21 & C24 & C30).
  split; [|exact C30].
  intros H. destruct (Qlt_le_dec v 30) as [L|G]; [|exact G].
  exfalso. revert H.
  destruct (Qlt_le_dec v 6); [rewrite C0 by lra; discriminate|].
  destruct (Qlt_le_dec v 8); [rewrite C6 by lra; discriminate|].
  destruct (Qlt_le_dec v 10); [rewrite C8 by lra; discriminate|].
  destruct (Qlt_le_dec v 21); [rewrite C10 by lra; discriminate|].
  destruct (Qlt_le_dec v 24); [rewrite C21 by lra; discriminate|].
  rewrite C24 by lra. discriminate.
Qed.

End PipelineFacts.

(** X17: for every input text that passes validation and holds no nan,
    the calculator is built, [calculate_all] returns a record whose eight
    estimates all lie in [0, 100], and the Safe IOP is classified
    Severely Elevated exactly when it is at least 30: the label a negative
    value would receive is never shown for a validated sample. *)
Theorem validated_sample_estimates (s : string) (vs : list pyfloat)
        (qs : list Q) :
  validate_measurements s = Ok vs -> finite_values vs = Some qs ->
  exists calc r,
    __init__ qs = Ok calc /\ calculate_all calc = Some r /\
    Forall (fun out => 0 <= out /\ out <= 100) (estimator_outputs r) /\
    (interpret_iop calc (safe_iop r) = "Severely Elevated"%string
     <-> 30 <= safe_iop r).
Proof.
  intros H Hq. apply validate_measurements_iff in H.
  destruct H as (_ & F & L).
  pose proof (finite_values_bounded _ _ F Hq) as B.
  rewrite <- (finite_values_length _ _ Hq) in L.
  destruct (calculator_spec qs L)
    as (calc & r & lo & hi & v & Hc & _ & Hr & Hlo & Hhi & _ & Hest & _).
  exists calc, r. split; [exact Hc|]. split; [exact Hr|].
  destruct (np_min_spec _ _ Hlo) as [Ilo _].
  destruct (np_max_spec _ _ Hhi) as [Ihi _].
  unfold bounded in B. rewrite Forall_forall in B.
  destruct (B lo Ilo) as [L0 _]. destruct (B hi Ihi) as [_ H100].
  assert (R : Forall (fun out => 0 <= out /\ out <= 100) (estimator_outputs r)).
  { eapply Forall_impl; [|exact Hest].
    intros out (u & [= ->] & B1 & B2). split.
    - change 0 with (round 0 1). apply round_le. lra.
    - change 100 with (round 100 1). apply round_le. lra. }
  split; [exact R|].
  unfold interpret_iop. apply interpret_iop_severe.
  apply Forall_inv in R. tauto.
Qed.

Lemma validated_sample_estimates_witness :
  exists calc r,
    __init__ [3; 2; 1] = Ok calc /\ calculate_all calc = Some r /\
    Forall (fun out => 0 <= out /\ out <= 100) (estimator_outputs r) /\
    (interpret_iop calc (safe_iop r) = "Severely Elevated"%string
     <-> 30 <= safe_iop r).
Proof.
  apply (validated_sample_estimates "3, 2, 1"
           [Finite 3; Finite 2; Finite 1] [3; 2; 1]).
  - vm_compute. reflexivity.
  - reflexivity.
Defined.

(** ** The constructor *)

(** X18: for a list of finite measurements the constructor fails exactly
    when there are fewer than three; when it succeeds the stored sample is
    the sorted copy of the input: ascending, with the same values in the
    same multiplicities, and [n] is their number. *)
Theorem init_outcome (l : list Q) :
  match __init__ l with
  | Raise _ => (length l < 3)%nat
  | Ok calc =>
      (3 <= length l)%nat /\
      n calc = length l /\
      measurements calc = np_array (sorted l) /\
      StronglySorted Qle (measurements calc) /\
      Permutation (measurements calc) (np_array l)
  end.
Proof.
  unfold __init__.
  destruct (Nat.ltb_spec (length l) 3) as [L|L]; [auto|].
  cbn [n measurements].
  rewrite np_array_length, sorted_length.
  split; [exact L|]. split; [reflexivity|]. split; [reflexivity|].
  split; [apply np_array_sorted, sorted_sorted|].
  unfold np_array. apply Permutation_map, sorted_perm.
Qed.

(** ** Rounding of the Safe IOP *)

(** X19: for every valid sample (at least three readings, all in
    [0, 100]) the reported Safe IOP, being rounded to one decimal, is
    within one tenth of the exact trimmed mean
    [(sum - min - max) / (n - 2)]. *)
Theorem safe_iop_rounding_error (l : list Q) (lo hi : Q) :
  valid_sample l -> np_min l = Some lo -> np_max l = Some hi ->
  exists out,
    SafeIop.calculate_safe_iop l = Some out /\
    Qabs (out - (np_sum l - lo - hi) / inject_Z (Z.of_nat (length l) - 2))
    <= 1 # 10.
Proof.
  intros [L _] Hlo Hhi.
  exists (round ((np_sum l - lo - hi) / inject_Z (Z.of_nat (length l) - 2)) 1).
  split; [|apply round1_near; reflexivity].
  unfold SafeIop.calculate_safe_iop.
  destruct (Nat.ltb_spec (length l) 3) as [L3|_]; [lia|].
  rewrite Hlo, Hhi. cbn [obind].
  rewrite np_div_some; [reflexivity|].
  intros Hz. change 0 with (inject_Z 0) in Hz.
  apply (proj1 (inject_Z_injective _ _)) in Hz. lia.
Qed.

Lemma safe_iop_rounding_error_witness :
  exists out,
    SafeIop.calculate_safe_iop [10; 1234 # 100; 15] = Some out /\
    Qabs (out - (np_sum [10; 1234 # 100; 15] - 10 - 15)
                / inject_Z (Z.of_nat (length [10; 1234 # 100; 15]) - 2))
    <= 1 # 10.
Proof.
  apply (safe_iop_rounding_error [10; 1234 # 100; 15] 10 15).
  - split; [simpl; lia|]. repeat constructor; unfold Qle; simpl; lia.
  - reflexivity.
  - reflexivity.
Defined.
